(** * StockTracker.py: the portfolio ledger and its valuation report

    A shallow embedding of [StockPortfolioTracker] (src/StockTracker.py),
    with its transaction listing, the series of its chart and the menu of
    [main], and of the word-guessing game of src/HUngman.py.

    Modelling conventions.
    - Python numbers are exact rationals ([Q]); [==], [>] are the numeric
      comparisons ([Qeq_bool], [gtb]), and [/] raises [ZeroDivisionError]
      on a zero divisor, as Python does for ints and floats alike.  The
      numbers of the model are finite: the NaN and the infinities of
      binary floats are no values of it, and the rounding of binary floats
      is not modelled.  So a statement about numbers either gives a result
      as the very expression the code evaluates (equal by [=], whatever
      the arithmetic), or rests on facts of order that are named where
      they are used and that finite binary floats share; no statement
      rests on regrouping a sum, on cancelling, or on a product of
      non-zero numbers being non-zero.
    - [self.portfolio] is a dict with the three keys "stocks",
      "transactions" and "cash": a record.  A stock is a dict with four
      keys: a record.  A transaction is a dict tagged by its "type" key: an
      inductive type with one constructor per tag.
    - The objects mutated in place ([existing_stock], [stock]) are aliases of
      elements of [self.portfolio["stocks"]]: an assignment through them is
      an update of the list at the index where the loop found them.
    - The collaborators are explicit: the price API and the clock are read
      from a [World]; [json.dump]/[json.load] and the contents of
      portfolio.json are parameters of the section.
    - A method returns an [outcome] (its return value or the exception it
      raises) together with the tracker as the call left it; what it prints
      is not modelled. *)

From stdpp Require Import base list strings sorting gmap.
From Stdlib Require Import QArith Lqa DecimalString.

Local Open Scope Q_scope.

(** ** Numeric comparisons *)

(** [x > y] on Python numbers. *)
Definition gtb (x y : Q) : bool := negb (Qle_bool x y).

(** ** Data model *)

(** An element of [portfolio["stocks"]]. *)
Record Position := mkPosition {
  symbol : string;
  shares : Q;
  avg_price : Q;
  purchase_date : string
}.

(** An element of [portfolio["transactions"]], by its "type". *)
Inductive Transaction :=
| cash_deposit (amount : Q) (date : string)
| cash_withdrawal (amount : Q) (date : string)
| buy (sym : string) (n price total : Q) (date : string)
| sell (sym : string) (n price total : Q) (date : string).

Record Portfolio := mkPortfolio {
  stocks : list Position;
  transactions : list Transaction;
  cash : Q
}.

(** The value [_load_portfolio] returns when there is no file. *)
Definition empty_portfolio : Portfolio := mkPortfolio [] [] 0.

Definition set_cash (c : Q) (p : Portfolio) : Portfolio :=
  mkPortfolio (stocks p) (transactions p) c.

Definition set_stocks (l : list Position) (p : Portfolio) : Portfolio :=
  mkPortfolio l (transactions p) (cash p).

(** [portfolio["transactions"].append(tr)] *)
Definition append_transaction (tr : Transaction) (p : Portfolio) : Portfolio :=
  mkPortfolio (stocks p) (transactions p ++ [tr]) (cash p).

(** What a call reads from outside the process: the price API
    ([get_stock_price] returns a price or [None]) and the clock, formatted
    as a day ("%Y-%m-%d") and as a time stamp ("%Y-%m-%d %H:%M:%S").  A
    [World] is what one call sees: within a call, the API gives one answer
    per symbol. *)
Record World := mkWorld {
  get_stock_price : string -> option Q;
  today : string;
  now : string
}.

Inductive exn := ZeroDivisionError | TypeError | JSONDecodeError.

Inductive outcome (A : Type) :=
| Return (a : A)
| Raise (e : exn).
Arguments Return {A} a.
Arguments Raise {A} e.

Definition bind {A B} (m : outcome A) (k : A -> outcome B) : outcome B :=
  match m with
  | Return a => k a
  | Raise e => Raise e
  end.

Notation "'try' x <- m 'in' k" := (bind m (fun x => k))
  (at level 10, x name, m at level 100, k at level 200).

(** [a / b] *)
Definition divide (a b : Q) : outcome Q :=
  if Qeq_bool b 0 then Raise ZeroDivisionError else Return (a / b).

(** The loops of [buy_stock] and [sell_stock]: the first stock with the
    symbol, and its index. *)
Definition find_stock (sym : string) (l : list Position) : option (nat * Position) :=
  list_find (fun stock => symbol stock = sym) l.

(** [if price is None: price = self.get_stock_price(symbol)] *)
Definition resolve_price (w : World) (sym : string) (price : option Q) : option Q :=
  match price with
  | Some p => Some p
  | None => get_stock_price w sym
  end.

Section Tracker.

(** The contents of portfolio.json, and Python's json module. *)
Context {text : Type}.
Variable json_dump : Portfolio -> text.
Variable json_load : text -> option Portfolio.

(** The tracker: [self.portfolio] and the file [self.portfolio_file]
    ([None]: the file does not exist). *)
Record Tracker := mkTracker {
  portfolio : Portfolio;
  portfolio_file : option text
}.

Definition _load_portfolio (file : option text) : outcome Portfolio :=
  match file with
  | Some f =>
      match json_load f with
      | Some p => Return p
      | None => Raise JSONDecodeError
      end
  | None => Return empty_portfolio
  end.

Definition _save_portfolio (t : Tracker) : Tracker :=
  mkTracker (portfolio t) (Some (json_dump (portfolio t))).

(** [StockPortfolioTracker(...)] on a file system holding [file]. *)
Definition init (file : option text) : outcome Tracker :=
  try p <- _load_portfolio file in Return (mkTracker p file).

Definition with_portfolio (p : Portfolio) (t : Tracker) : Tracker :=
  mkTracker p (portfolio_file t).

Definition add_cash (w : World) (amount : Q) (t : Tracker) : outcome unit * Tracker :=
  let p := portfolio t in
  let p := set_cash (cash p + amount) p in
  let p := append_transaction (cash_deposit amount (now w)) p in
  (Return tt, _save_portfolio (with_portfolio p t)).

Definition withdraw_cash (w : World) (amount : Q) (t : Tracker) : outcome bool * Tracker :=
  let p := portfolio t in
  if gtb amount (cash p) then (Return false, t)
  else
    let p := set_cash (cash p - amount) p in
    let p := append_transaction (cash_withdrawal amount (now w)) p in
    (Return true, _save_portfolio (with_portfolio p t)).

Definition buy_stock (w : World) (sym : string) (n : Q) (price : option Q)
    (t : Tracker) : outcome bool * Tracker :=
  match resolve_price w sym price with
  | None => (Return false, t)
  | Some price =>
      let p := portfolio t in
      let total_cost := price * n in
      if gtb total_cost (cash p) then (Return false, t)
      else
        let p := set_cash (cash p - total_cost) p in
        let finish (p : Portfolio) (total_cost : Q) :=
          let p := append_transaction (buy sym n price total_cost (now w)) p in
          (Return true, _save_portfolio (with_portfolio p t)) in
        match find_stock sym (stocks p) with
        | Some (i, existing_stock) =>
            let total_shares := shares existing_stock + n in
            let total_cost :=
              shares existing_stock * avg_price existing_stock + n * price in
            match divide total_cost total_shares with
            | Raise e => (Raise e, with_portfolio p t)
            | Return avg =>
                let stock' :=
                  mkPosition (symbol existing_stock) total_shares avg
                             (purchase_date existing_stock) in
                finish (set_stocks (<[i := stock']> (stocks p)) p) total_cost
            end
        | None =>
            let stock' := mkPosition sym n price (today w) in
            finish (set_stocks (stocks p ++ [stock']) p) total_cost
        end
  end.

Definition sell_stock (w : World) (sym : string) (n : Q) (price : option Q)
    (t : Tracker) : outcome bool * Tracker :=
  let p := portfolio t in
  match find_stock sym (stocks p) with
  | None => (Return false, t)
  | Some (stock_index, stock) =>
      if gtb n (shares stock) then (Return false, t)
      else
        match resolve_price w sym price with
        | None => (Return false, t)
        | Some price =>
            let total_proceeds := price * n in
            let p := set_cash (cash p + total_proceeds) p in
            let p :=
              if Qeq_bool n (shares stock)
              then set_stocks (delete stock_index (stocks p)) p
              else
                let stock' :=
                  mkPosition (symbol stock) (shares stock - n) (avg_price stock)
                             (purchase_date stock) in
                set_stocks (<[stock_index := stock']> (stocks p)) p in
            let p := append_transaction (sell sym n price total_proceeds (now w)) p in
            (Return true, _save_portfolio (with_portfolio p t))
        end
  end.

End Tracker.

(** ** Valuation report ([show_portfolio]) *)

(** A line of the holdings table, before formatting. *)
Record Row := mkRow {
  row_symbol : string;
  row_shares : Q;
  row_avg_price : Q;
  row_current_price : Q;
  row_cost_basis : Q;
  row_current_value : Q;
  row_gain_loss : Q;
  row_gain_loss_pct : Q
}.

(** The figures of the summary, before formatting. *)
Record Summary := mkSummary {
  total_value : Q;
  cash_balance : Q;
  total_with_cash : Q;
  total_cost : Q;
  total_gain_loss : Q;
  total_gain_loss_pct : Q
}.

(** One iteration of the loop over the stocks.  [shares * current_price]
    with [current_price = None] raises [TypeError]. *)
Definition holding (w : World) (stock : Position) : outcome Row :=
  let cost_basis := shares stock * avg_price stock in
  match get_stock_price w (symbol stock) with
  | None => Raise TypeError
  | Some current_price =>
      let current_value := shares stock * current_price in
      let gain_loss := current_value - cost_basis in
      try q <- divide gain_loss cost_basis in
      let gain_loss_pct := q * 100 in
      Return (mkRow (symbol stock) (shares stock) (avg_price stock) current_price
                    cost_basis current_value gain_loss gain_loss_pct)
  end.

(** The loop, with its three accumulators. *)
Fixpoint holdings (w : World) (l : list Position) (portfolio_data : list Row)
    (total_value total_cost : Q) : outcome (list Row * Q * Q) :=
  match l with
  | [] => Return (portfolio_data, total_value, total_cost)
  | stock :: l =>
      try r <- holding w stock in
      holdings w l (portfolio_data ++ [r])
               (total_value + row_current_value r) (total_cost + row_cost_basis r)
  end.

(** [show_portfolio] prints a table and a summary, or the empty-portfolio
    message ([None]). *)
Definition show_portfolio (w : World) (p : Portfolio)
    : outcome (option (list Row * Summary)) :=
  match stocks p with
  | [] => Return None
  | _ =>
      try acc <- holdings w (stocks p) [] 0 0 in
      let '(portfolio_data, total_value, total_cost) := acc in
      let total_with_cash := total_value + cash p in
      let total_gain_loss := total_value - total_cost in
      let total_gain_loss_pct :=
        if gtb total_cost 0 then (total_gain_loss / total_cost) * 100 else 0 in
      Return (Some (portfolio_data,
                    mkSummary total_value (cash p) total_with_cash total_cost
                              total_gain_loss total_gain_loss_pct))
  end.

(** ** Sequences of ledger calls *)

Inductive Op :=
| Deposit (amount : Q)
| Withdraw (amount : Q)
| Buy (sym : string) (n : Q) (price : option Q)
| Sell (sym : string) (n : Q) (price : option Q).

Section Run.

Context {text : Type}.
Variable json_dump : Portfolio -> text.

(** The tracker after one call, whether the call returned [True], returned
    [False] or raised. *)
Definition step (t : Tracker) (c : World * Op) : Tracker :=
  let (w, op) := c in
  match op with
  | Deposit amount => snd (add_cash json_dump w amount t)
  | Withdraw amount => snd (withdraw_cash json_dump w amount t)
  | Buy sym n price => snd (buy_stock json_dump w sym n price t)
  | Sell sym n price => snd (sell_stock json_dump w sym n price t)
  end.

Definition run (calls : list (World * Op)) (t : Tracker) : Tracker :=
  fold_left step calls t.

End Run.

(** A deposit of a negative amount, or a sale with negative proceeds, takes
    cash out; every other call is [cash_safe]. *)
Definition cash_safe (c : World * Op) : Prop :=
  let (w, op) := c in
  match op with
  | Deposit amount => 0 <= amount
  | Sell sym n price =>
      forall p, resolve_price w sym price = Some p -> 0 <= p * n
  | _ => True
  end.

(** How one call can move the cash: not at all; up, by an amount that is
    not negative; or down, by an amount that the test [amount > cash] let
    through. *)
Inductive cash_move (c : Q) : Q -> Prop :=
| cash_kept : cash_move c c
| cash_in (a : Q) : 0 <= a -> cash_move c (c + a)
| cash_out (a : Q) : gtb a c = false -> cash_move c (c - a).

(** The positions in other symbols than [sym], in the order of the list. *)
Definition others (sym : string) (l : list Position) : list Position :=
  filter (fun stock => symbol stock <> sym) l.

(** The data model's key: no two positions in one symbol. *)
Definition unique_symbols (p : Portfolio) : Prop := NoDup (symbol <$> stocks p).

(** ** The transaction listing ([show_transactions]) *)

(** [t["date"]] *)
Definition date (tr : Transaction) : string :=
  match tr with
  | cash_deposit _ d | cash_withdrawal _ d | buy _ _ _ _ d | sell _ _ _ _ d => d
  end.

(** [sorted(l, key=lambda x: x["date"], reverse=True)].  Python's sort is
    stable, also under [reverse=True]: the result is the one list that is in
    descending order of the keys and keeps elements with equal keys in the
    order of [l].  Inserting from the right, in front of the first element
    whose key is not greater, computes it. *)
Fixpoint insert_by_date (x : Transaction) (l : list Transaction) : list Transaction :=
  match l with
  | [] => [x]
  | y :: l' =>
      if String.ltb (date x) (date y) then y :: insert_by_date x l'
      else x :: y :: l'
  end.

Definition sorted_by_date (l : list Transaction) : list Transaction :=
  foldr insert_by_date [] l.

(** The order of the listing: [b] is not dated after [a]. *)
Definition newer_first (a b : Transaction) : Prop :=
  String.leb (date b) (date a) = true.

(** [l[:limit]], for an integer [limit] of either sign. *)
Definition slice_to {A} (limit : Z) (l : list A) : list A :=
  if (0 <=? limit)%Z then take (Z.to_nat limit) l
  else take (length l - Z.to_nat (- limit)) l.

(** A line of the transaction table, before formatting; [None] is the
    cell "-". *)
Record TransactionRow := mkTransactionRow {
  tr_date : string;
  tr_type : string;
  tr_symbol : option string;
  tr_shares : option Q;
  tr_price : option Q;
  tr_total : Q
}.

(** The body of the loop: one line per transaction.  For the two cash
    types the label is ["CASH " + t["type"].split("_")[1].upper()]. *)
Definition transaction_row (tr : Transaction) : TransactionRow :=
  match tr with
  | buy sym n price total d =>
      mkTransactionRow d "BUY" (Some sym) (Some n) (Some price) total
  | sell sym n price total d =>
      mkTransactionRow d "SELL" (Some sym) (Some n) (Some price) total
  | cash_deposit amount d =>
      mkTransactionRow d "CASH DEPOSIT" None None None amount
  | cash_withdrawal amount d =>
      mkTransactionRow d "CASH WITHDRAWAL" None None None amount
  end.

(** [show_transactions] prints a table, or the no-transactions message
    ([None]). *)
Definition show_transactions (limit : Z) (p : Portfolio)
    : option (list TransactionRow) :=
  match transactions p with
  | [] => None
  | _ =>
      let transactions := sorted_by_date (transactions p) in
      Some (transaction_row <$> slice_to limit transactions)
  end.

(** ** The chart ([generate_performance_chart]) *)

(** The loop that collects the three series handed to matplotlib: the
    labels, the current values and the cost bases.  The drawing and the
    image file are not modelled. *)
Fixpoint chart_series (w : World) (l : list Position)
    (labels : list string) (values costs : list Q)
    : outcome (list string * list Q * list Q) :=
  match l with
  | [] => Return (labels, values, costs)
  | stock :: l =>
      match get_stock_price w (symbol stock) with
      | None => Raise TypeError
      | Some current_price =>
          chart_series w l (labels ++ [symbol stock])
                       (values ++ [shares stock * current_price])
                       (costs ++ [shares stock * avg_price stock])
      end
  end.

(** [None]: the empty-portfolio message, nothing is drawn. *)
Definition generate_performance_chart (w : World) (p : Portfolio)
    : outcome (option (list string * list Q * list Q)) :=
  match stocks p with
  | [] => Return None
  | _ => try series <- chart_series w (stocks p) [] [] [] in Return (Some series)
  end.

(** ** Reading the ledger *)

(** What a logged transaction did to the cash [c], redone from its amount
    or from its price and shares with the expression of the method that
    logged it. *)
Definition apply_effect (c : Q) (tr : Transaction) : Q :=
  match tr with
  | cash_deposit amount _ => c + amount
  | cash_withdrawal amount _ => c - amount
  | buy _ n price _ _ => c - price * n
  | sell _ n price _ _ => c + price * n
  end.

(** The transactions of a log redone one after the other, oldest first. *)
Definition replay (c : Q) (log : list Transaction) : Q :=
  fold_left apply_effect log c.

(** Every position has shares above zero. *)
Definition positive_shares (p : Portfolio) : Prop :=
  Forall (fun stock => 0 < shares stock) (stocks p).

(** A buy or a sell of a number of shares above zero; deposits and
    withdrawals are not restricted. *)
Definition trades_positive (c : World * Op) : Prop :=
  match snd c with
  | Buy _ n _ | Sell _ n _ => 0 < n
  | _ => True
  end.

Section Outcomes.

Context {text : Type}.
Variable json_dump : Portfolio -> text.

(** Whether a call raises. *)
Definition raises (t : Tracker) (c : World * Op) : Prop :=
  let (w, op) := c in
  match op with
  | Buy sym n price => exists e, fst (buy_stock json_dump w sym n price t) = Raise e
  | Sell sym n price => exists e, fst (sell_stock json_dump w sym n price t) = Raise e
  | Withdraw amount => exists e, fst (withdraw_cash json_dump w amount t) = Raise e
  | Deposit amount => exists e, fst (add_cash json_dump w amount t) = Raise e
  end.

(** No call of the sequence raises, each made on the tracker the calls
    before it left. *)
Fixpoint all_return (calls : list (World * Op)) (t : Tracker) : Prop :=
  match calls with
  | [] => True
  | c :: calls => ~ raises t c /\ all_return calls (step json_dump t c)
  end.

End Outcomes.

(** ** The menu ([main]) *)

(** How a session at the menu ends: choice 8, an exception that nothing
    catches, or the end of the input ([input()] raises [EOFError]). *)
Inductive stop :=
| Exited
| Died (e : exn)
| EndOfInput.

Section Main.

Context {text : Type}.
Variable json_dump : Portfolio -> text.
Variable json_load : text -> option Portfolio.

(** [float(s)]; [None] is [ValueError]. *)
Variable float : string -> option Q.

(** [s.upper()] *)
Variable upper : string -> string.

(** The [while True] loop, on the lines typed; [worlds i] is what the
    [i]-th turn of the loop sees of the API and the clock.  The menu and the
    messages it prints are not modelled. *)
Fixpoint main_loop (worlds : nat -> World) (i : nat) (lines : list string)
    (tracker : Tracker) : stop * Tracker :=
  match lines with
  | [] => (EndOfInput, tracker)
  | choice :: lines =>
      let w := worlds i in
      if String.eqb choice "1" then
        match show_portfolio w (portfolio tracker) with
        | Raise e => (Died e, tracker)
        | Return _ => main_loop worlds (S i) lines tracker
        end
      else if String.eqb choice "2" then
        match lines with
        | [] => (EndOfInput, tracker)
        | symbol :: lines =>
            let symbol := upper symbol in
            match lines with
            | [] => (EndOfInput, tracker)
            | shares :: lines =>
                match float shares with
                | None => main_loop worlds (S i) lines tracker
                | Some shares =>
                    match buy_stock json_dump w symbol shares None tracker with
                    | (Raise e, tracker) => (Died e, tracker)
                    | (Return _, tracker) => main_loop worlds (S i) lines tracker
                    end
                end
            end
        end
      else if String.eqb choice "3" then
        match lines with
        | [] => (EndOfInput, tracker)
        | symbol :: lines =>
            let symbol := upper symbol in
            match lines with
            | [] => (EndOfInput, tracker)
            | shares :: lines =>
                match float shares with
                | None => main_loop worlds (S i) lines tracker
                | Some shares =>
                    match sell_stock json_dump w symbol shares None tracker with
                    | (Raise e, tracker) => (Died e, tracker)
                    | (Return _, tracker) => main_loop worlds (S i) lines tracker
                    end
                end
            end
        end
      else if String.eqb choice "4" then
        match lines with
        | [] => (EndOfInput, tracker)
        | amount :: lines =>
            match float amount with
            | None => main_loop worlds (S i) lines tracker
            | Some amount =>
                match add_cash json_dump w amount tracker with
                | (Raise e, tracker) => (Died e, tracker)
                | (Return _, tracker) => main_loop worlds (S i) lines tracker
                end
            end
        end
      else if String.eqb choice "5" then
        match lines with
        | [] => (EndOfInput, tracker)
        | amount :: lines =>
            match float amount with
            | None => main_loop worlds (S i) lines tracker
            | Some amount =>
                match withdraw_cash json_dump w amount tracker with
                | (Raise e, tracker) => (Died e, tracker)
                | (Return _, tracker) => main_loop worlds (S i) lines tracker
                end
            end
        end
      else if String.eqb choice "6" then
        let _ := show_transactions 10 (portfolio tracker) in
        main_loop worlds (S i) lines tracker
      else if String.eqb choice "7" then
        match generate_performance_chart w (portfolio tracker) with
        | Raise e => (Died e, tracker)
        | Return _ => main_loop worlds (S i) lines tracker
        end
      else if String.eqb choice "8" then (Exited, tracker)
      else main_loop worlds (S i) lines tracker
  end.

(** [main()] on a file system holding [file]: [None] when the tracker could
    not be made. *)
Definition main (worlds : nat -> World) (file : option text) (lines : list string)
    : stop * option Tracker :=
  match init json_load file with
  | Raise e => (Died e, None)
  | Return tracker =>
      let (s, tracker) := main_loop worlds 0 lines tracker in (s, Some tracker)
  end.

End Main.


(** * HUngman.py: the word-guessing game

    The word and the guesses are strings; a letter of the word is a string
    of length one.  [guessed_letters] is a set of strings.  The index that
    [random.choice] draws, [str.lower] and the lines typed are given to the
    game; what it prints is not modelled, apart from [display_word]. *)
Module Hangman.

Definition words : list string :=
  ["python"; "hangman"; "developer"; "challenge"; "programming"; "artificial"].

(** [random.choice(words)], for the index [r] that is drawn. *)
Definition choose_word (r : nat) : option string := words !! r.

(** [for letter in word] *)
Definition letters (word : string) : list string :=
  (fun c => String c EmptyString) <$> String.list_ascii_of_string word.

Definition display_word (word : string) (guessed_letters : gset string) : string :=
  String.concat " "
    ((fun letter => if decide (letter ∈ guessed_letters) then letter else "_")
       <$> letters word).

(** [guess in word], on strings: [guess] occurs somewhere in [word]. *)
Definition occurs (guess word : string) : bool :=
  match String.index 0 guess word with
  | Some _ => true
  | None => false
  end.

(** [all(letter in guessed_letters for letter in word)] *)
Definition all_guessed (word : string) (guessed_letters : gset string) : bool :=
  forallb (fun letter => bool_decide (letter ∈ guessed_letters)) (letters word).

(** How a game ends: the congratulations, the game-over message of the
    [else] of the loop, or the end of the input ([input()] raises
    [EOFError]). *)
Inductive ending := Won | Lost | OutOfInput.

Section Game.

(** [s.lower()] *)
Variable lower : string -> string.

(** The [while attempts > 0] loop, on the lines typed; it returns with the
    set of guesses and the attempts left. *)
Fixpoint play (word : string) (guessed_letters : gset string) (attempts : nat)
    (lines : list string) : ending * gset string * nat :=
  match attempts with
  | O => (Lost, guessed_letters, attempts)
  | S _ =>
      match lines with
      | [] => (OutOfInput, guessed_letters, attempts)
      | line :: lines =>
          let guess := lower line in
          let '(guessed_letters, attempts) :=
            if decide (guess ∈ guessed_letters) then (guessed_letters, attempts)
            else if occurs guess word then ({[guess]} ∪ guessed_letters, attempts)
            else ({[guess]} ∪ guessed_letters, (attempts - 1)%nat) in
          if all_guessed word guessed_letters then (Won, guessed_letters, attempts)
          else play word guessed_letters attempts lines
      end
  end.

(** [hangman()]; [None] when [r] is no index of [words], which
    [random.choice] never draws. *)
Definition hangman (r : nat) (lines : list string)
    : option (ending * gset string * nat) :=
  match choose_word r with
  | Some word => Some (play word ∅ 6 lines)
  | None => None
  end.

End Game.

(** The guesses that do not occur in the word. *)
Definition wrong (word : string) (guessed_letters : gset string) : gset string :=
  filter (fun guess => occurs guess word = false) guessed_letters.

End Hangman.

(** ** A concrete setting for examples

    The file holds the document itself; a fixed price table and clock. *)
Module Demo.

Definition dump (p : Portfolio) : Portfolio := p.
Definition load (f : Portfolio) : option Portfolio := Some f.

Definition quotes (sym : string) : option Q :=
  if String.eqb sym "AAPL" then Some 150
  else if String.eqb sym "MSFT" then Some 300
  else None.

Definition world : World := mkWorld quotes "2024-01-02" "2024-01-02 10:00:00".

Definition aapl (n price : Q) : Position := mkPosition "AAPL" n price "2024-01-01".
Definition msft (n price : Q) : Position := mkPosition "MSFT" n price "2024-01-01".

(** cash = 1000, nothing held, no file yet *)
Definition start : @Tracker Portfolio := mkTracker (mkPortfolio [] [] 1000) None.

(** cash = 1000, 2 AAPL at 100 and 3 MSFT at 50 *)
Definition held : @Tracker Portfolio :=
  mkTracker (mkPortfolio [aapl 2 100; msft 3 50] [] 1000) None.

(** Numerals of integers, as [float] reads them: "100", "-5"; other lines
    are not numbers here. *)
Definition float (s : string) : option Q :=
  match NilZero.int_of_string s with
  | Some d => Some (inject_Z (Z.of_int d))
  | None => None
  end.

(** [upper] on ASCII letters. *)
Definition upper_ascii (c : Ascii.ascii) : Ascii.ascii :=
  let n := Ascii.nat_of_ascii c in
  if ((97 <=? n) && (n <=? 122))%nat then Ascii.ascii_of_nat (n - 32) else c.

Fixpoint upper (s : string) : string :=
  match s with
  | EmptyString => EmptyString
  | String c s => String (upper_ascii c) (upper s)
  end.

(** [lower] on ASCII letters. *)
Definition lower_ascii (c : Ascii.ascii) : Ascii.ascii :=
  let n := Ascii.nat_of_ascii c in
  if ((65 <=? n) && (n <=? 90))%nat then Ascii.ascii_of_nat (n + 32) else c.

Fixpoint lower (s : string) : string :=
  match s with
  | EmptyString => EmptyString
  | String c s => String (lower_ascii c) (lower s)
  end.

(** A deposit of 1000, a buy of 3 AAPL, the report, exit. *)
Definition session : list string := ["4"; "1000"; "2"; "aapl"; "3"; "1"; "8"].

End Demo.

(** * Properties *)

(** ** Comparisons *)

Lemma gtb_true x y : gtb x y = true <-> y < x.
Proof.
  unfold gtb. rewrite negb_true_iff, <- not_true_iff_false, Qle_bool_iff.
  split; [apply Qnot_le_lt | apply Qlt_not_le].
Qed.

Lemma gtb_false x y : gtb x y = false <-> x <= y.
Proof. unfold gtb. rewrite negb_false_iff. apply Qle_bool_iff. Qed.

(** The two facts of order behind the cash invariant.  Finite binary
    floats share them, rounding included: a sum of two numbers that are not
    negative is not negative, and [c - a] is not negative when [a > c] is
    false.  (They fail for NaN, and the second for an infinite [a].) *)
Lemma nonneg_plus_nonneg (c a : Q) : 0 <= c -> 0 <= a -> 0 <= c + a.
Proof. intros. lra. Qed.

Lemma nonneg_minus_not_gt (c a : Q) : gtb a c = false -> 0 <= c - a.
Proof. intros H. apply gtb_false in H. lra. Qed.

Lemma cash_move_nonneg (c c' : Q) : 0 <= c -> cash_move c c' -> 0 <= c'.
Proof.
  intros Hc [|a Ha|a Ha].
  - exact Hc.
  - now apply nonneg_plus_nonneg.
  - now apply nonneg_minus_not_gt.
Qed.

(** ** Properties of the ledger *)

Section Ledger.

Context {text : Type}.
Variable json_dump : Portfolio -> text.

Implicit Types (t : @Tracker text) (w : World) (n amount : Q) (sym : string).

(** Saving does not touch the portfolio. *)
Lemma portfolio_save t : portfolio (_save_portfolio json_dump t) = portfolio t.
Proof. reflexivity. Qed.

(** *** When a call is rejected *)

Lemma withdraw_cash_rejected w amount t :
  fst (withdraw_cash json_dump w amount t) = Return false <->
  cash (portfolio t) < amount.
Proof.
  unfold withdraw_cash. destruct (gtb _ _) eqn:E; simpl.
  - apply gtb_true in E. tauto.
  - apply gtb_false in E. split; [discriminate | lra].
Qed.

Lemma buy_stock_rejected w sym n price t :
  fst (buy_stock json_dump w sym n price t) = Return false <->
  resolve_price w sym price = None \/
  exists p, resolve_price w sym price = Some p /\ cash (portfolio t) < p * n.
Proof.
  unfold buy_stock. destruct (resolve_price w sym price) as [p|]; simpl.
  2: { split; auto. }
  destruct (gtb _ _) eqn:E; simpl.
  - apply gtb_true in E. split; eauto.
  - apply gtb_false in E. split.
    + destruct (find_stock _ _) as [[i st]|]; simpl; [|discriminate].
      destruct (divide _ _); simpl; discriminate.
    + intros [?|(q & [= <-] & ?)]; [discriminate | lra].
Qed.

Lemma sell_stock_rejected w sym n price t :
  fst (sell_stock json_dump w sym n price t) = Return false <->
  find_stock sym (stocks (portfolio t)) = None \/
  (exists i stock, find_stock sym (stocks (portfolio t)) = Some (i, stock)
                   /\ shares stock < n) \/
  resolve_price w sym price = None.
Proof.
  unfold sell_stock. destruct (find_stock _ _) as [[i st]|]; simpl.
  2: { split; auto. }
  destruct (gtb _ _) eqn:E; simpl.
  - apply gtb_true in E. split; eauto 6.
  - apply gtb_false in E.
    destruct (resolve_price w sym price) as [p|]; simpl.
    + split; [discriminate|].
      intros [?|[(j & s & [= <- <-] & ?)|?]]; [discriminate | lra | discriminate].
    + split; auto.
Qed.

(** A call that returns [False] has changed nothing, in memory or on disk. *)
Lemma rejected_unchanged w t :
  (forall amount,
      fst (withdraw_cash json_dump w amount t) = Return false ->
      snd (withdraw_cash json_dump w amount t) = t) /\
  (forall sym n price,
      fst (buy_stock json_dump w sym n price t) = Return false ->
      snd (buy_stock json_dump w sym n price t) = t) /\
  (forall sym n price,
      fst (sell_stock json_dump w sym n price t) = Return false ->
      snd (sell_stock json_dump w sym n price t) = t).
Proof.
  split; [|split].
  - intros amount. unfold withdraw_cash.
    destruct (gtb _ _); simpl; [reflexivity | discriminate].
  - intros sym n price. unfold buy_stock.
    destruct (resolve_price _ _ _); simpl; [|reflexivity].
    destruct (gtb _ _); simpl; [reflexivity|].
    destruct (find_stock _ _) as [[i st]|]; simpl; [|discriminate].
    destruct (divide _ _); simpl; discriminate.
  - intros sym n price. unfold sell_stock.
    destruct (find_stock _ _) as [[i st]|]; simpl; [|reflexivity].
    destruct (gtb _ _); simpl; [reflexivity|].
    destruct (resolve_price _ _ _); simpl; [discriminate | reflexivity].
Qed.

End Ledger.

Section CashChecks.

Context {text : Type}.
Variable json_dump : Portfolio -> text.

Implicit Types (t : @Tracker text) (w : World) (n amount : Q) (sym : string).

(** C3.  A withdrawal of more than the cash, and a buy whose cost
    [price * shares] is more than the cash, return [False] and leave the
    tracker (cash, stocks, transactions, and the file) as it was.  A
    deposit always goes through, and whether a sell goes through does not
    depend on the cash. *)
Theorem insufficient_funds_rejected w t :
  (forall amount,
      cash (portfolio t) < amount ->
      withdraw_cash json_dump w amount t = (Return false, t)) /\
  (forall sym n price p,
      resolve_price w sym price = Some p ->
      cash (portfolio t) < p * n ->
      buy_stock json_dump w sym n price t = (Return false, t)) /\
  (forall amount, fst (add_cash json_dump w amount t) = Return tt) /\
  (forall sym n price c,
      fst (sell_stock json_dump w sym n price
             (with_portfolio (set_cash c (portfolio t)) t)) =
      fst (sell_stock json_dump w sym n price t)).
Proof.
  repeat split.
  - intros amount Hlt. unfold withdraw_cash.
    apply gtb_true in Hlt. now rewrite Hlt.
  - intros sym n price p Hp Hlt. unfold buy_stock. rewrite Hp.
    apply gtb_true in Hlt. now rewrite Hlt.
  - intros sym n price c. unfold sell_stock. simpl.
    destruct (find_stock _ _) as [[i st]|]; [|reflexivity].
    destruct (gtb _ _); [reflexivity|].
    destruct (resolve_price _ _ _); reflexivity.
Qed.

(** C6.  Cash after a call that went through: a deposit adds the amount,
    a withdrawal takes it off, a buy takes off [price * shares] (also when
    it merges into a held position) and a sell adds [price * shares]. *)
Theorem cash_arithmetic w t :
  (forall amount,
      cash (portfolio (snd (add_cash json_dump w amount t))) =
      cash (portfolio t) + amount) /\
  (forall amount,
      fst (withdraw_cash json_dump w amount t) = Return true ->
      cash (portfolio (snd (withdraw_cash json_dump w amount t))) =
      cash (portfolio t) - amount) /\
  (forall sym n price p,
      resolve_price w sym price = Some p ->
      fst (buy_stock json_dump w sym n price t) = Return true ->
      cash (portfolio (snd (buy_stock json_dump w sym n price t))) =
      cash (portfolio t) - p * n) /\
  (forall sym n price p,
      resolve_price w sym price = Some p ->
      fst (sell_stock json_dump w sym n price t) = Return true ->
      cash (portfolio (snd (sell_stock json_dump w sym n price t))) =
      cash (portfolio t) + p * n).
Proof.
  repeat split.
  - intros amount. unfold withdraw_cash.
    destruct (gtb _ _); simpl; [discriminate | reflexivity].
  - intros sym n price p Hp. unfold buy_stock. rewrite Hp.
    destruct (gtb _ _); simpl; [discriminate|].
    destruct (find_stock _ _) as [[i st]|]; simpl; [|reflexivity].
    destruct (divide _ _); simpl; [reflexivity | discriminate].
  - intros sym n price p Hp. unfold sell_stock.
    destruct (find_stock _ _) as [[i st]|]; simpl; [|discriminate].
    destruct (gtb _ _); simpl; [discriminate|].
    rewrite Hp. simpl. destruct (Qeq_bool _ _); reflexivity.
Qed.

End CashChecks.

(** 1500 cannot be withdrawn from 1000, 20 AAPL at 100 cannot be bought with
    1000; a deposit and a sell go through. *)
Lemma insufficient_funds_rejected_witness :
  withdraw_cash Demo.dump Demo.world 1500 Demo.held = (Return false, Demo.held) /\
  buy_stock Demo.dump Demo.world "AAPL" 20 (Some 100) Demo.held
    = (Return false, Demo.held).
Proof.
  destruct (insufficient_funds_rejected Demo.dump Demo.world Demo.held)
    as (Hw & Hb & _ & _).
  split.
  - apply Hw. reflexivity.
  - apply (Hb "AAPL" 20 (Some 100) 100); reflexivity.
Defined.

Lemma cash_arithmetic_witness :
  cash (portfolio (snd (withdraw_cash Demo.dump Demo.world 400 Demo.held)))
    = 1000 - 400 /\
  cash (portfolio (snd (buy_stock Demo.dump Demo.world "AAPL" 2 (Some 200) Demo.held)))
    = 1000 - 200 * 2 /\
  cash (portfolio (snd (sell_stock Demo.dump Demo.world "AAPL" 1 None Demo.held)))
    = 1000 + 150 * 1.
Proof.
  destruct (cash_arithmetic Demo.dump Demo.world Demo.held) as (_ & Hw & Hb & Hs).
  split; [|split].
  - apply Hw. reflexivity.
  - apply (Hb "AAPL" 2 (Some 200) 200); reflexivity.
  - apply (Hs "AAPL" 1 None 150); reflexivity.
Defined.

Section Signs.

Context {text : Type}.
Variable json_dump : Portfolio -> text.

Implicit Types (t : @Tracker text) (w : World) (n amount : Q) (sym : string).

(** C4, as the code has it.  No method looks at the sign of its amount or
    share quantity.  [add_cash] never rejects: whatever the amount, also
    zero or negative, it adds it to the cash and logs the deposit.  The
    other three return [False] exactly on their own checks (more than the
    cash, symbol not held, more than the shares held, no price), and a
    call that returns [False] leaves the tracker as it was. *)
Theorem rejection_causes w t :
  (forall amount,
      fst (add_cash json_dump w amount t) = Return tt /\
      cash (portfolio (snd (add_cash json_dump w amount t))) =
        cash (portfolio t) + amount /\
      transactions (portfolio (snd (add_cash json_dump w amount t))) =
        transactions (portfolio t) ++ [cash_deposit amount (now w)]) /\
  (forall amount,
      (fst (withdraw_cash json_dump w amount t) = Return false <->
       cash (portfolio t) < amount) /\
      (fst (withdraw_cash json_dump w amount t) = Return false ->
       snd (withdraw_cash json_dump w amount t) = t)) /\
  (forall sym n price,
      (fst (buy_stock json_dump w sym n price t) = Return false <->
       resolve_price w sym price = None \/
       exists p, resolve_price w sym price = Some p /\ cash (portfolio t) < p * n) /\
      (fst (buy_stock json_dump w sym n price t) = Return false ->
       snd (buy_stock json_dump w sym n price t) = t)) /\
  (forall sym n price,
      (fst (sell_stock json_dump w sym n price t) = Return false <->
       find_stock sym (stocks (portfolio t)) = None \/
       (exists i stock, find_stock sym (stocks (portfolio t)) = Some (i, stock)
                        /\ shares stock < n) \/
       resolve_price w sym price = None) /\
      (fst (sell_stock json_dump w sym n price t) = Return false ->
       snd (sell_stock json_dump w sym n price t) = t)).
Proof.
  destruct (rejected_unchanged json_dump w t) as (Hw & Hb & Hs).
  split; [|split; [|split]].
  - intros amount. repeat split.
  - intros amount. split; [apply withdraw_cash_rejected | apply Hw].
  - intros sym n price. split; [apply buy_stock_rejected | apply Hb].
  - intros sym n price. split; [apply sell_stock_rejected | apply Hs].
Qed.

(** What one [cash_safe] call does to the cash, as the code computes it:
    nothing; [cash + amount] (a deposit) or [cash + price * shares] (a
    sell), the amount added not negative; [cash - amount] (a withdrawal)
    or [cash - price * shares] (a buy), after the test
    [amount > cash] was false.  No fact of arithmetic is used. *)
Lemma step_cash_move t c :
  cash_safe c ->
  cash_move (cash (portfolio t)) (cash (portfolio (step json_dump t c))).
Proof.
  destruct c as [w [amount|amount|sym n price|sym n price]]; simpl; intros Hsafe.
  - now apply cash_in.
  - unfold withdraw_cash. destruct (gtb _ _) eqn:E; simpl;
      [apply cash_kept | now apply cash_out].
  - unfold buy_stock.
    destruct (resolve_price _ _ _) as [p|]; simpl; [|apply cash_kept].
    destruct (gtb _ _) eqn:E; simpl; [apply cash_kept|].
    destruct (find_stock _ _) as [[i st]|]; simpl; [|now apply cash_out].
    destruct (divide _ _); simpl; now apply cash_out.
  - unfold sell_stock.
    destruct (find_stock _ _) as [[i st]|]; simpl; [|apply cash_kept].
    destruct (gtb _ _); simpl; [apply cash_kept|].
    destruct (resolve_price _ _ _) as [p|] eqn:Hp; simpl; [|apply cash_kept].
    specialize (Hsafe p eq_refl).
    destruct (Qeq_bool _ _); simpl; now apply cash_in.
Qed.

(** One call keeps the cash non-negative, if it is [cash_safe]. *)
Lemma step_cash_nonneg t c :
  cash_safe c -> 0 <= cash (portfolio t) ->
  0 <= cash (portfolio (step json_dump t c)).
Proof.
  intros Hsafe Hcash. eapply cash_move_nonneg; [exact Hcash|].
  now apply step_cash_move.
Qed.

(** C5, as the code has it, for finite numbers.  From a cash balance that
    is not negative, the balance is not negative after any sequence of
    deposits, withdrawals, buys and sells (returning [True], returning
    [False] or raising) in which every deposit is of an amount >= 0 and
    every sell has proceeds [price * shares] >= 0.  Withdrawals and buys
    are restricted in nothing but this: their amounts and costs are
    numbers of the model, so finite.  The proof is [step_cash_move], which
    holds in any arithmetic, and the two facts of order of
    [cash_move_nonneg]. *)
Theorem cash_nonneg_preserved calls t :
  Forall cash_safe calls ->
  0 <= cash (portfolio t) ->
  0 <= cash (portfolio (run json_dump calls t)).
Proof.
  intros Hsafe. revert t. unfold run.
  induction Hsafe as [|c calls Hc _ IH]; intros t Hcash; simpl.
  - assumption.
  - apply IH. now apply step_cash_nonneg.
Qed.

End Signs.

(** C4 fails on the code: with cash 1000 and 2 AAPL held, a deposit of -5, a
    withdrawal of -5, a buy of -1 share and a sell of -1 share all go
    through and change the cash. *)
Lemma non_positive_quantities_accepted :
  let deposited := add_cash Demo.dump Demo.world (-5) Demo.held in
  let withdrawn := withdraw_cash Demo.dump Demo.world (-5) Demo.held in
  let bought := buy_stock Demo.dump Demo.world "AAPL" (-1) (Some 100) Demo.held in
  let sold := sell_stock Demo.dump Demo.world "AAPL" (-1) (Some 100) Demo.held in
  (fst deposited = Return tt /\ cash (portfolio (snd deposited)) == 995 /\
   snd deposited <> Demo.held) /\
  (fst withdrawn = Return true /\ cash (portfolio (snd withdrawn)) == 1005) /\
  (fst bought = Return true /\ cash (portfolio (snd bought)) == 1100) /\
  (fst sold = Return true /\ cash (portfolio (snd sold)) == 900).
Proof.
  cbv zeta. repeat split; try reflexivity. discriminate.
Qed.

(** The deposit of a negative amount is not rejected. *)
Lemma rejection_causes_witness :
  fst (add_cash Demo.dump Demo.world (-5) Demo.held) = Return tt /\
  fst (withdraw_cash Demo.dump Demo.world (-5) Demo.held) <> Return false /\
  snd (withdraw_cash Demo.dump Demo.world 1500 Demo.held) = Demo.held.
Proof.
  destruct (rejection_causes Demo.dump Demo.world Demo.held) as (Ha & Hw & _ & _).
  split; [apply (Ha (-5))|].
  split.
  - intros H. apply (proj1 (Hw (-5))) in H. revert H. vm_compute. discriminate.
  - apply (proj2 (Hw 1500)). reflexivity.
Defined.

(** C5 fails on the code: one deposit of -5 on an empty tracker. *)
Lemma negative_deposit_negative_cash :
  let t := mkTracker empty_portfolio None in
  0 <= cash (portfolio t) /\
  cash (portfolio (run Demo.dump [(Demo.world, Deposit (-5))] t)) < 0.
Proof. split; [discriminate | reflexivity]. Qed.

Lemma cash_nonneg_preserved_witness :
  0 <= cash (portfolio
              (run Demo.dump
                 [(Demo.world, Deposit 50); (Demo.world, Buy "MSFT" 2 None);
                  (Demo.world, Withdraw 2000); (Demo.world, Sell "AAPL" 2 None)]
                 Demo.held)).
Proof.
  apply cash_nonneg_preserved.
  - repeat constructor; simpl; try discriminate.
    intros p [= <-]. discriminate.
  - discriminate.
Defined.

(** ** Positions *)

(** Updates of a list at the index of an element outside the filter. *)
Section Filter.

Context {A : Type} (P : A -> Prop) `{!forall x, Decision (P x)}.

Lemma filter_insert_out (l : list A) (i : nat) (x y : A) :
  l !! i = Some x -> ~ P x -> ~ P y -> filter P (<[i := y]> l) = filter P l.
Proof.
  intros Hi Hx Hy.
  rewrite insert_take_drop by (eapply lookup_lt_Some; eauto).
  rewrite <- (take_drop_middle l i x Hi) at 3.
  now rewrite !filter_app, !filter_cons_False.
Qed.

Lemma filter_delete_out (l : list A) (i : nat) (x : A) :
  l !! i = Some x -> ~ P x -> filter P (delete i l) = filter P l.
Proof.
  intros Hi Hx. rewrite delete_take_drop.
  rewrite <- (take_drop_middle l i x Hi) at 3.
  now rewrite !filter_app, filter_cons_False.
Qed.

Lemma filter_snoc_out (l : list A) (y : A) :
  ~ P y -> filter P (l ++ [y]) = filter P l.
Proof.
  intros Hy. rewrite filter_app, filter_cons_False, filter_nil by done.
  apply app_nil_r.
Qed.

End Filter.

Lemma find_stock_Some sym (l : list Position) i pos :
  find_stock sym l = Some (i, pos) -> l !! i = Some pos /\ symbol pos = sym.
Proof. unfold find_stock. rewrite list_find_Some. tauto. Qed.

Lemma find_stock_None sym (l : list Position) :
  find_stock sym l = None -> sym ∉ symbol <$> l.
Proof.
  unfold find_stock. rewrite list_find_None, Forall_forall.
  intros Hall (pos & -> & Hin)%list_elem_of_fmap. now apply (Hall pos).
Qed.

(** With unique symbols, a symbol is at one index only. *)
Lemma unique_symbols_index (l : list Position) (i j : nat) pos pos' :
  NoDup (symbol <$> l) ->
  l !! i = Some pos -> l !! j = Some pos' -> symbol pos = symbol pos' -> i = j.
Proof.
  intros Hnd Hi Hj Heq.
  apply (NoDup_lookup _ i j (symbol pos) Hnd); rewrite list_lookup_fmap.
  - now rewrite Hi.
  - rewrite Hj. simpl. now rewrite Heq.
Qed.

(** Replacing a position by one in the same symbol keeps the symbols. *)
Lemma symbols_insert (l : list Position) (i : nat) pos pos' :
  l !! i = Some pos -> symbol pos' = symbol pos ->
  symbol <$> <[i := pos']> l = symbol <$> l.
Proof.
  intros Hi Heq. rewrite list_fmap_insert, Heq.
  apply list_insert_id. rewrite list_lookup_fmap. now rewrite Hi.
Qed.

Section Positions.

Context {text : Type}.
Variable json_dump : Portfolio -> text.

Implicit Types (t : @Tracker text) (w : World) (n : Q) (sym : string).

(** A buy into a held position goes through when the price is known, the
    cost is covered and the new number of shares is not zero. *)
Lemma buy_stock_merge_succeeds w sym n price p t i pos :
  find_stock sym (stocks (portfolio t)) = Some (i, pos) ->
  resolve_price w sym price = Some p ->
  p * n <= cash (portfolio t) ->
  ~ shares pos + n == 0 ->
  fst (buy_stock json_dump w sym n price t) = Return true.
Proof.
  intros Hfind Hp Hcash Hnz. unfold buy_stock. rewrite Hp.
  apply gtb_false in Hcash. rewrite Hcash. simpl. rewrite Hfind.
  unfold divide. destruct (Qeq_bool _ _) eqn:E; [|reflexivity].
  now apply Qeq_bool_iff in E.
Qed.

(** C10.  After [buy_stock] or [sell_stock] on a symbol, however the call
    ends, the positions in the other symbols are the same positions (same
    shares, average price and purchase date) in the same order. *)
Theorem other_positions_untouched w sym n price t :
  others sym (stocks (portfolio (snd (buy_stock json_dump w sym n price t)))) =
    others sym (stocks (portfolio t)) /\
  others sym (stocks (portfolio (snd (sell_stock json_dump w sym n price t)))) =
    others sym (stocks (portfolio t)).
Proof.
  split.
  - unfold buy_stock.
    destruct (resolve_price _ _ _) as [p|]; simpl; [|reflexivity].
    destruct (gtb _ _); simpl; [reflexivity|].
    destruct (find_stock _ _) as [[i pos]|] eqn:Hfind; simpl.
    + apply find_stock_Some in Hfind as [Hi Hsym].
      destruct (divide _ _); simpl; [|reflexivity].
      apply (filter_insert_out _ _ i pos); simpl; auto.
    + apply filter_snoc_out. simpl. auto.
  - unfold sell_stock.
    destruct (find_stock _ _) as [[i pos]|] eqn:Hfind; simpl; [|reflexivity].
    apply find_stock_Some in Hfind as [Hi Hsym].
    destruct (gtb _ _); simpl; [reflexivity|].
    destruct (resolve_price _ _ _) as [p|]; simpl; [|reflexivity].
    destruct (Qeq_bool _ _); simpl.
    + apply (filter_delete_out _ _ i pos); auto.
    + apply (filter_insert_out _ _ i pos); simpl; auto.
Qed.

End Positions.

(** [price * shares] and [shares * price] are the same fraction. *)
Lemma Qmult_swap (x y : Q) : x * y = y * x.
Proof. unfold Qmult. f_equal; [apply Z.mul_comm | apply Pos.mul_comm]. Qed.

(** Replacing the first position in [sym] by another in [sym] keeps it the
    first. *)
Lemma find_stock_insert sym (l : list Position) (i : nat) pos pos' :
  find_stock sym l = Some (i, pos) -> symbol pos' = sym ->
  find_stock sym (<[i := pos']> l) = Some (i, pos').
Proof.
  unfold find_stock. rewrite !list_find_Some. intros (Hi & Hsym & Hmin) Hsym'.
  split; [|split].
  - apply list_lookup_insert_eq. eapply lookup_lt_Some; eauto.
  - assumption.
  - intros j y Hj Hlt. rewrite list_lookup_insert_ne in Hj by lia. eauto.
Qed.

(** With unique symbols, dropping the position in [sym] leaves none. *)
Lemma find_stock_delete sym (l : list Position) (i : nat) pos :
  NoDup (symbol <$> l) -> l !! i = Some pos -> symbol pos = sym ->
  find_stock sym (delete i l) = None.
Proof.
  intros Hnd Hi Hsym.
  destruct (find_stock sym (delete i l)) as [[j q]|] eqn:Hfind; [|reflexivity].
  apply find_stock_Some in Hfind as [Hj Hq]. exfalso.
  destruct (decide (j < i)%nat) as [Hlt|Hge].
  - rewrite list_lookup_delete_lt in Hj by assumption.
    assert (i = j) by (eapply unique_symbols_index; eauto; congruence). lia.
  - rewrite list_lookup_delete_ge in Hj by lia.
    assert (i = S j) by (eapply unique_symbols_index; eauto; congruence). lia.
Qed.

Section Trades.

Context {text : Type}.
Variable json_dump : Portfolio -> text.

Implicit Types (t : @Tracker text) (w : World) (n : Q) (sym : string).

(** C1.  The portfolio holds [pos], a position in [sym] of [s1] shares at
    average price [p1] (the one the loop of [buy_stock] finds), and a buy
    of [s2] shares of [sym] at [p2] returns [True].  Then the list of
    stocks is the old one with [pos] replaced, at its place, by a position
    of [s1 + s2] shares at average price [(s1*p1 + s2*p2) / (s1 + s2)];
    it is the position the next lookup of [sym] finds; and in a portfolio
    with unique symbols it is the only position in [sym].  This holds for
    every [s2], so for [s2 > 0]. *)
Theorem buy_weighted_average w sym s2 price p2 t i pos :
  find_stock sym (stocks (portfolio t)) = Some (i, pos) ->
  resolve_price w sym price = Some p2 ->
  fst (buy_stock json_dump w sym s2 price t) = Return true ->
  let s1 := shares pos in
  let p1 := avg_price pos in
  let pos' :=
    mkPosition sym (s1 + s2) ((s1 * p1 + s2 * p2) / (s1 + s2)) (purchase_date pos) in
  let after := stocks (portfolio (snd (buy_stock json_dump w sym s2 price t))) in
  after = <[i := pos']> (stocks (portfolio t)) /\
  find_stock sym after = Some (i, pos') /\
  (unique_symbols (portfolio t) ->
   forall (j : nat) q, after !! j = Some q -> symbol q = sym -> j = i /\ q = pos').
Proof.
  intros Hfind Hp. cbv zeta. unfold buy_stock. rewrite Hp.
  destruct (gtb _ _); simpl; [discriminate|]. rewrite Hfind.
  unfold divide. destruct (Qeq_bool _ _); simpl; [discriminate|]. intros _.
  destruct (find_stock_Some _ _ _ _ Hfind) as [Hi Hsym]. rewrite Hsym.
  split; [reflexivity|]. split.
  - now apply (find_stock_insert sym _ i pos).
  - intros Hnd j q Hj Hq.
    assert (Hlen : (i < length (stocks (portfolio t)))%nat)
      by (eapply lookup_lt_Some; eauto).
    destruct (decide (j = i)) as [->|Hne].
    + rewrite list_lookup_insert_eq in Hj by assumption. split; congruence.
    + rewrite list_lookup_insert_ne in Hj by congruence. exfalso. apply Hne.
      symmetry. eapply unique_symbols_index; eauto. congruence.
Qed.

(** C2.  The portfolio holds [pos], a position in [sym] of [h] shares (the
    one the loop of [sell_stock] finds), and a sell of [n] shares of [sym]
    returns [True].  If [n] is [h], the position is taken out of the list,
    and with unique symbols the portfolio holds [sym] no more.  If
    [0 < n < h], the position stays at its place with [h - n] shares and
    the same average price and purchase date. *)
Theorem sell_all_or_part w sym n price t i pos :
  find_stock sym (stocks (portfolio t)) = Some (i, pos) ->
  fst (sell_stock json_dump w sym n price t) = Return true ->
  let h := shares pos in
  let after := stocks (portfolio (snd (sell_stock json_dump w sym n price t))) in
  (n == h ->
   after = delete i (stocks (portfolio t)) /\
   (unique_symbols (portfolio t) -> find_stock sym after = None)) /\
  (0 < n -> n < h ->
   let pos' := mkPosition sym (h - n) (avg_price pos) (purchase_date pos) in
   after = <[i := pos']> (stocks (portfolio t)) /\
   find_stock sym after = Some (i, pos')).
Proof.
  intros Hfind. cbv zeta. unfold sell_stock. rewrite Hfind.
  destruct (gtb _ _); simpl; [discriminate|].
  destruct (resolve_price _ _ _) as [p|]; simpl; [|discriminate]. intros _.
  destruct (find_stock_Some _ _ _ _ Hfind) as [Hi Hsym].
  split.
  - intros Heq. apply Qeq_bool_iff in Heq. rewrite Heq. simpl.
    split; [reflexivity|]. intros Hnd. now apply (find_stock_delete sym _ i pos).
  - intros _ Hlt.
    assert (Hne : Qeq_bool n (shares pos) = false).
    { destruct (Qeq_bool _ _) eqn:E; [|reflexivity].
      apply Qeq_bool_iff in E. lra. }
    rewrite Hne, Hsym. simpl. split; [reflexivity|].
    now apply (find_stock_insert sym _ i pos).
Qed.

(** C7.  The buy transaction logged by a buy of [s] shares at [p] that
    returns [True] has as its total: [s0*p0 + s*p] when the buy merges
    into a held position of [s0] shares at average price [p0], and [s*p]
    when it opens a position. *)
Theorem buy_transaction_total w sym s price p t :
  resolve_price w sym price = Some p ->
  fst (buy_stock json_dump w sym s price t) = Return true ->
  transactions (portfolio (snd (buy_stock json_dump w sym s price t))) =
    transactions (portfolio t) ++
    [buy sym s p
       match find_stock sym (stocks (portfolio t)) with
       | Some (_, held) => shares held * avg_price held + s * p
       | None => s * p
       end
       (now w)].
Proof.
  intros Hp. unfold buy_stock. rewrite Hp.
  destruct (gtb _ _); simpl; [discriminate|].
  destruct (find_stock _ _) as [[i held]|]; simpl.
  - destruct (divide _ _); simpl; [reflexivity | discriminate].
  - intros _. now rewrite (Qmult_swap p s).
Qed.

(** Unique symbols are kept by every call. *)
Lemma step_unique_symbols t c :
  unique_symbols (portfolio t) ->
  unique_symbols (portfolio (step json_dump t c)).
Proof.
  unfold unique_symbols.
  destruct c as [w [amount|amount|sym n price|sym n price]]; simpl; intros Hnd.
  - assumption.
  - unfold withdraw_cash. destruct (gtb _ _); assumption.
  - unfold buy_stock. destruct (resolve_price _ _ _) as [p|]; simpl; [|assumption].
    destruct (gtb _ _); simpl; [assumption|].
    destruct (find_stock _ _) as [[i pos]|] eqn:Hfind; simpl.
    + destruct (divide _ _); simpl; [|assumption].
      apply find_stock_Some in Hfind as [Hi _].
      now rewrite (symbols_insert _ i pos).
    + apply find_stock_None in Hfind. rewrite fmap_app. simpl.
      apply NoDup_app. split; [assumption|]. split; [|apply NoDup_singleton].
      intros x Hx ->%list_elem_of_singleton. contradiction.
  - unfold sell_stock.
    destruct (find_stock _ _) as [[i pos]|] eqn:Hfind; simpl; [|assumption].
    destruct (gtb _ _); simpl; [assumption|].
    destruct (resolve_price _ _ _) as [p|]; simpl; [|assumption].
    apply find_stock_Some in Hfind as [Hi _].
    destruct (Qeq_bool _ _); simpl.
    + rewrite list_fmap_delete. exact (sublist_NoDup _ _ Hnd (sublist_delete _ i)).
    + now rewrite (symbols_insert _ i pos).
Qed.

(** X9.  Symbols stay unique.  If no two positions of the portfolio are in
    one symbol (as in an empty portfolio), this is still so after any
    sequence of calls, however each ends: a tracker that starts without
    stocks never holds two positions in one symbol. *)
Lemma run_unique_symbols calls t :
  unique_symbols (portfolio t) ->
  unique_symbols (portfolio (run json_dump calls t)).
Proof.
  revert t. unfold run.
  induction calls as [|c calls IH]; intros t Hnd; simpl; [assumption|].
  apply IH. now apply step_unique_symbols.
Qed.

End Trades.

(** 2 AAPL at 100 are held; 2 more are bought at 200. *)
Lemma buy_weighted_average_witness :
  stocks (portfolio
            (snd (buy_stock Demo.dump Demo.world "AAPL" 2 (Some 200) Demo.held))) =
  [mkPosition "AAPL" (2 + 2) ((2 * 100 + 2 * 200) / (2 + 2)) "2024-01-01";
   Demo.msft 3 50].
Proof.
  exact (proj1 (buy_weighted_average Demo.dump Demo.world "AAPL" 2 (Some 200) 200
                  Demo.held 0%nat (Demo.aapl 2 100) eq_refl eq_refl eq_refl)).
Defined.

(** 2 AAPL are held: selling 2 leaves MSFT alone, selling 1 leaves 2 - 1. *)
Lemma sell_all_or_part_witness :
  stocks (portfolio (snd (sell_stock Demo.dump Demo.world "AAPL" 2 None Demo.held))) =
    [Demo.msft 3 50] /\
  stocks (portfolio (snd (sell_stock Demo.dump Demo.world "AAPL" 1 None Demo.held))) =
    [mkPosition "AAPL" (2 - 1) 100 "2024-01-01"; Demo.msft 3 50].
Proof.
  split.
  - apply (sell_all_or_part Demo.dump Demo.world "AAPL" 2 None Demo.held 0%nat
             (Demo.aapl 2 100) eq_refl eq_refl).
    reflexivity.
  - apply (sell_all_or_part Demo.dump Demo.world "AAPL" 1 None Demo.held 0%nat
             (Demo.aapl 2 100) eq_refl eq_refl);
      reflexivity.
Defined.

(** Merging 2 AAPL at 200 into 2 AAPL at 100 logs 2*100 + 2*200; opening a
    position of 1 TSLA at 10 logs 1*10. *)
Lemma buy_transaction_total_witness :
  transactions
    (portfolio (snd (buy_stock Demo.dump Demo.world "AAPL" 2 (Some 200) Demo.held))) =
    [buy "AAPL" 2 200 (2 * 100 + 2 * 200) "2024-01-02 10:00:00"] /\
  transactions
    (portfolio (snd (buy_stock Demo.dump Demo.world "TSLA" 1 (Some 10) Demo.held))) =
    [buy "TSLA" 1 10 (1 * 10) "2024-01-02 10:00:00"].
Proof.
  split.
  - exact (buy_transaction_total Demo.dump Demo.world "AAPL" 2 (Some 200) 200
             Demo.held eq_refl eq_refl).
  - exact (buy_transaction_total Demo.dump Demo.world "TSLA" 1 (Some 10) 10
             Demo.held eq_refl eq_refl).
Defined.

(** ** The report *)

(** A position whose cost basis is zero stops the report, once its price
    has been fetched. *)
Lemma holding_zero_cost_basis w stock current_price :
  get_stock_price w (symbol stock) = Some current_price ->
  shares stock * avg_price stock == 0 ->
  holding w stock = Raise ZeroDivisionError.
Proof.
  intros Hprice Hzero. unfold holding, divide. rewrite Hprice.
  apply Qeq_bool_iff in Hzero. now rewrite Hzero.
Qed.

(** The percentage of the summary is guarded: it is 0 when the total cost
    is not positive. *)
Lemma summary_percentage_guarded w p rows s :
  show_portfolio w p = Return (Some (rows, s)) ->
  total_cost s <= 0 -> total_gain_loss_pct s = 0.
Proof.
  unfold show_portfolio. destruct (stocks p) as [|stock l]; [discriminate|].
  destruct (holdings _ _ _ _ _) as [[[data tv] tc]|]; simpl; [|discriminate].
  intros [= <- <-]. simpl. intros Hle. apply gtb_false in Hle. now rewrite Hle.
Qed.

(** C8 fails on the code.  Buying 0 shares of AAPL with cash 1000 goes
    through and opens a position of 0 shares; its cost basis is 0, and the
    report then raises [ZeroDivisionError] at the percentage of that
    position. *)
Theorem show_portfolio_zero_cost_basis :
  let t := run Demo.dump [(Demo.world, Buy "AAPL" 0 None)] Demo.start in
  stocks (portfolio t) = [mkPosition "AAPL" 0 150 "2024-01-02"] /\
  show_portfolio Demo.world (portfolio t) = Raise ZeroDivisionError.
Proof. split; reflexivity. Qed.

(** ** Persistence *)

Section Persistence.

Context {text : Type}.
Variable json_load : text -> option Portfolio.

(** Without a file the tracker starts empty. *)
Lemma init_no_file : init json_load None = Return (mkTracker empty_portfolio None).
Proof. reflexivity. Qed.

End Persistence.

(** ** The scenarios of the specification *)

(** cash = 1000; buy(AAPL, 2, 100); buy(AAPL, 2, 200); sell(AAPL, 4, 150). *)
Example scenario_buy_buy_sell :
  let t1 := run Demo.dump [(Demo.world, Buy "AAPL" 2 (Some 100))] Demo.start in
  let t2 := run Demo.dump [(Demo.world, Buy "AAPL" 2 (Some 200))] t1 in
  let t3 := run Demo.dump [(Demo.world, Sell "AAPL" 4 (Some 150))] t2 in
  (cash (portfolio t1) == 800 /\
   stocks (portfolio t1) = [mkPosition "AAPL" 2 100 "2024-01-02"]) /\
  (cash (portfolio t2) == 400 /\
   (exists pos, stocks (portfolio t2) = [pos] /\
                shares pos == 4 /\ avg_price pos == 150)) /\
  (cash (portfolio t3) == 1000 /\ stocks (portfolio t3) = []).
Proof.
  cbv zeta. repeat split; try reflexivity.
  eexists. repeat split; reflexivity.
Qed.

(** withdraw(1500) on cash = 1000 *)
Example scenario_withdraw_too_much :
  withdraw_cash Demo.dump Demo.world 1500 Demo.start = (Return false, Demo.start).
Proof. reflexivity. Qed.

(** ** The log and the cash *)

(** Closes the three parts of [step_log] once the appended transactions
    are given. *)
Ltac logged :=
  repeat split; simpl;
  first [ reflexivity
        | now rewrite app_nil_r
        | lia
        | intros _; reflexivity ].

Section Log.

Context {text : Type}.
Variable json_dump : Portfolio -> text.

Implicit Types (t : @Tracker text) (w : World) (n amount : Q) (sym : string).

(** One call appends at most one transaction, and unless it raises the
    cash is the old cash with that transaction redone. *)
Lemma step_log t c :
  exists new,
    transactions (portfolio (step json_dump t c)) =
      transactions (portfolio t) ++ new /\
    (length new <= 1)%nat /\
    (~ raises json_dump t c ->
     cash (portfolio (step json_dump t c)) = replay (cash (portfolio t)) new).
Proof.
  assert (Hnil : forall l : list Transaction, l = l ++ [])
    by (intros; now rewrite app_nil_r).
  destruct c as [w [amount|amount|sym n price|sym n price]]; simpl.
  - eexists [_]. logged.
  - unfold withdraw_cash. destruct (gtb _ _); simpl;
      [exists [] | eexists [_]]; logged.
  - unfold buy_stock.
    destruct (resolve_price _ _ _) as [p|]; simpl; [|exists []; logged].
    destruct (gtb _ _); simpl; [exists []; logged|].
    destruct (find_stock _ _) as [[i pos]|]; simpl; [|eexists [_]; logged].
    destruct (divide _ _); simpl; [eexists [_]; logged|].
    exists []. repeat split; simpl; [apply Hnil | lia |].
    intros Hno. exfalso. apply Hno. eauto.
  - unfold sell_stock.
    destruct (find_stock _ _) as [[i pos]|]; simpl; [|exists []; logged].
    destruct (gtb _ _); simpl; [exists []; logged|].
    destruct (resolve_price _ _ _) as [p|]; simpl; [|exists []; logged].
    eexists [_]. destruct (Qeq_bool _ _); logged.
Qed.

(** X1.  The log is append-only.  After any sequence of calls, however
    each ends, the transactions that were in the log are still there, as
    they were and at the front; and the log has grown by at most one
    transaction per call. *)
Theorem transactions_append_only calls t :
  transactions (portfolio t) `prefix_of`
    transactions (portfolio (run json_dump calls t)) /\
  (length (transactions (portfolio (run json_dump calls t))) <=
   length (transactions (portfolio t)) + length calls)%nat.
Proof.
  revert t. unfold run.
  induction calls as [|c calls IH]; intros t; simpl.
  - split; [reflexivity | lia].
  - destruct (step_log t c) as (new & Hnew & Hlen & _).
    destruct (IH (step json_dump t c)) as [Hpre Hle].
    rewrite Hnew in Hpre, Hle. rewrite length_app in Hle. split; [|lia].
    etrans; [|exact Hpre]. now apply prefix_app_r.
Qed.

(** X2.  The cash can be read off the log.  After a sequence of calls none
    of which raises, the cash is the result of redoing, from the cash
    before and in the order of the log, the transactions the sequence
    appended: [+ amount] for a deposit, [- amount] for a withdrawal,
    [- price * shares] for a buy (not its recorded total) and
    [+ price * shares] for a sell.  These are the expressions the methods
    evaluate, in their order, so the equality is [=] and holds in any
    arithmetic. *)
Theorem cash_follows_log calls t :
  all_return json_dump calls t ->
  exists new,
    transactions (portfolio (run json_dump calls t)) =
      transactions (portfolio t) ++ new /\
    cash (portfolio (run json_dump calls t)) = replay (cash (portfolio t)) new.
Proof.
  revert t. unfold run.
  induction calls as [|c calls IH]; intros t; simpl.
  - intros _. exists []. split; [now rewrite app_nil_r | reflexivity].
  - intros [Hc Hrest].
    destruct (step_log t c) as (new & Hnew & _ & Hcash).
    destruct (IH _ Hrest) as (new' & Hnew' & Hcash').
    exists (new ++ new'). split.
    + rewrite Hnew', Hnew. now rewrite app_assoc.
    + rewrite Hcash', (Hcash Hc). unfold replay. now rewrite fold_left_app.
Qed.

End Log.

(** 2 AAPL and 3 MSFT are held with cash 1000: a deposit, a buy that merges
    and a sell. *)
Lemma cash_follows_log_witness :
  exists new,
    transactions
      (portfolio
         (run Demo.dump
            [(Demo.world, Deposit 50); (Demo.world, Buy "MSFT" 2 None);
             (Demo.world, Sell "AAPL" 1 None)] Demo.held)) =
      transactions (portfolio Demo.held) ++ new /\
    cash
      (portfolio
         (run Demo.dump
            [(Demo.world, Deposit 50); (Demo.world, Buy "MSFT" 2 None);
             (Demo.world, Sell "AAPL" 1 None)] Demo.held)) =
      replay (cash (portfolio Demo.held)) new.
Proof.
  apply cash_follows_log. simpl.
  repeat split; intros [e He]; discriminate He.
Defined.

(** ** Calls that raise *)

(** Two facts of order that finite binary floats share, rounding included:
    the sum of two positive numbers is positive, so not zero; and for a
    positive [n], when [n > h] and [n == h] are both false, [h - n] is
    positive. *)
Lemma positive_plus_positive (a b : Q) :
  0 < a -> 0 < b -> 0 < a + b /\ Qeq_bool (a + b) 0 = false.
Proof.
  intros Ha Hb. split; [lra|].
  destruct (Qeq_bool (a + b) 0) eqn:E; [|reflexivity].
  apply Qeq_bool_iff in E. lra.
Qed.

Lemma positive_difference (h n : Q) :
  0 < n -> gtb n h = false -> Qeq_bool n h = false -> 0 < h - n.
Proof.
  intros _ Hgt Hne. apply gtb_false in Hgt. apply Qeq_bool_neq in Hne.
  destruct (Qlt_le_dec n h) as [Hlt|Hge]; [lra|].
  exfalso. apply Hne. now apply Qle_antisym.
Qed.

Section Raising.

Context {text : Type}.
Variable json_dump : Portfolio -> text.

Implicit Types (t : @Tracker text) (w : World) (n amount : Q) (sym : string).

(** X4.  [buy_stock] raises in one case only: the price is known, the cost
    is covered, the symbol is held, and the shares held plus the shares
    bought are zero; the exception is [ZeroDivisionError].  The cash in
    memory has by then moved by price * shares, while the stocks, the log
    and the file are as before the call: nothing was logged or saved. *)
Theorem buy_stock_raises w sym n price t e :
  (fst (buy_stock json_dump w sym n price t) = Raise e <->
   e = ZeroDivisionError /\
   exists p i pos,
     resolve_price w sym price = Some p /\
     p * n <= cash (portfolio t) /\
     find_stock sym (stocks (portfolio t)) = Some (i, pos) /\
     shares pos + n == 0) /\
  (fst (buy_stock json_dump w sym n price t) = Raise e ->
   exists p,
     resolve_price w sym price = Some p /\
     snd (buy_stock json_dump w sym n price t) =
       mkTracker (mkPortfolio (stocks (portfolio t)) (transactions (portfolio t))
                              (cash (portfolio t) - p * n))
                 (portfolio_file t)).
Proof.
  unfold buy_stock. destruct (resolve_price w sym price) as [p|]; simpl.
  2: { split; [split|]; [discriminate | intros (_ & q & ? & ? & [=] & _) | discriminate]. }
  destruct (gtb _ _) eqn:Hcash; simpl.
  { apply gtb_true in Hcash. split; [split|]; [discriminate | | discriminate].
    intros (_ & q & ? & ? & [= <-] & ? & _). lra. }
  apply gtb_false in Hcash.
  destruct (find_stock _ _) as [[i pos]|]; simpl.
  2: { split; [split|]; [discriminate | intros (_ & q & ? & ? & _ & _ & [=] & _) | discriminate]. }
  unfold divide. destruct (Qeq_bool _ _) eqn:Hz; simpl.
  - apply Qeq_bool_iff in Hz. split; [split|].
    + intros [= <-]. split; [reflexivity|]. exists p, i, pos. auto.
    + now intros [-> _].
    + intros _. exists p. auto.
  - apply Qeq_bool_neq in Hz. split; [split|]; [discriminate | | discriminate].
    intros (_ & q & j & pos' & _ & _ & [= <- <-] & ?). contradiction.
Qed.

(** The other three never raise. *)
Lemma only_buy_raises t c :
  raises json_dump t c ->
  exists w sym n price, c = (w, Buy sym n price).
Proof.
  destruct c as [w [amount|amount|sym n price|sym n price]]; simpl; intros [e He].
  - discriminate.
  - unfold withdraw_cash in He. destruct (gtb _ _); discriminate.
  - eauto.
  - unfold sell_stock in He.
    destruct (find_stock _ _) as [[i pos]|]; simpl in He; [|discriminate].
    destruct (gtb _ _); simpl in He; [discriminate|].
    destruct (resolve_price _ _ _); discriminate.
Qed.

(** One call keeps the shares positive and does not raise, if it is no
    buy or sell of a number of shares that is not positive.  The facts of
    numbers used are [positive_plus_positive] and [positive_difference]. *)
Lemma step_positive_shares t c :
  trades_positive c -> positive_shares (portfolio t) ->
  positive_shares (portfolio (step json_dump t c)) /\ ~ raises json_dump t c.
Proof.
  unfold positive_shares. intros Hc Hpos. split.
  - destruct c as [w [amount|amount|sym n price|sym n price]]; simpl in *.
    + assumption.
    + unfold withdraw_cash. destruct (gtb _ _); assumption.
    + unfold buy_stock.
      destruct (resolve_price _ _ _) as [p|]; simpl; [|assumption].
      destruct (gtb _ _); simpl; [assumption|].
      destruct (find_stock _ _) as [[i pos]|] eqn:Hfind; simpl.
      * apply find_stock_Some in Hfind as [Hi _].
        pose proof (Forall_lookup_1 _ _ _ _ Hpos Hi) as Hs. simpl in Hs.
        unfold divide. destruct (Qeq_bool _ _); simpl; [assumption|].
        apply Forall_insert; [assumption|]. simpl.
        now apply positive_plus_positive.
      * apply Forall_app. split; [assumption|]. repeat constructor; assumption.
    + unfold sell_stock.
      destruct (find_stock _ _) as [[i pos]|] eqn:Hfind; simpl; [|assumption].
      apply find_stock_Some in Hfind as [Hi _].
      destruct (gtb _ _) eqn:Hgt; simpl; [assumption|].
      destruct (resolve_price _ _ _) as [p|]; simpl; [|assumption].
      destruct (Qeq_bool _ _) eqn:Hall; simpl.
      * now apply Forall_delete.
      * apply Forall_insert; [assumption|]. simpl.
        now apply positive_difference.
  - intros Hraise.
    destruct (only_buy_raises t c Hraise) as (w & sym & n & price & ->).
    simpl in Hc. destruct Hraise as [e He]. revert He.
    unfold buy_stock. destruct (resolve_price _ _ _) as [p|]; simpl; [|discriminate].
    destruct (gtb _ _); simpl; [discriminate|].
    destruct (find_stock _ _) as [[i pos]|] eqn:Hfind; simpl; [|discriminate].
    apply find_stock_Some in Hfind as [Hi _].
    pose proof (Forall_lookup_1 _ _ _ _ Hpos Hi) as Hs. simpl in Hs.
    unfold divide.
    now rewrite (proj2 (positive_plus_positive _ _ Hs Hc)).
Qed.

End Raising.

(** 2 AAPL are held; buying -2 at 100 raises, and the cash in memory is then
    1000 - 100 * -2. *)
Lemma buy_stock_raises_witness :
  fst (buy_stock Demo.dump Demo.world "AAPL" (-2) (Some 100) Demo.held)
    = Raise ZeroDivisionError /\
  exists p,
    resolve_price Demo.world "AAPL" (Some 100) = Some p /\
    snd (buy_stock Demo.dump Demo.world "AAPL" (-2) (Some 100) Demo.held) =
      mkTracker (mkPortfolio (stocks (portfolio Demo.held))
                             (transactions (portfolio Demo.held))
                             (cash (portfolio Demo.held) - p * -2))
                (portfolio_file Demo.held).
Proof.
  destruct (buy_stock_raises Demo.dump Demo.world "AAPL" (-2) (Some 100) Demo.held
              ZeroDivisionError) as [Hiff Hstate].
  assert (Hraise : fst (buy_stock Demo.dump Demo.world "AAPL" (-2) (Some 100) Demo.held)
                   = Raise ZeroDivisionError).
  { apply Hiff. split; [reflexivity|].
    exists 100, 0%nat, (Demo.aapl 2 100).
    split; [reflexivity|]. split; [discriminate|]. split; reflexivity. }
  split; [exact Hraise | exact (Hstate Hraise)].
Defined.

Section Positive.

Context {text : Type}.
Variable json_dump : Portfolio -> text.

Implicit Types (t : @Tracker text).

(** X5.  Positive trades do not raise.  If every position has shares > 0
    (as in an empty portfolio), then after any sequence of calls in which
    every buy and every sell is of a number of shares > 0 this is still so,
    and no call of the sequence raises: [buy_stock] does not divide by
    zero.  Prices, deposits and withdrawals are not restricted.  The facts
    of numbers used are [positive_plus_positive] and
    [positive_difference]. *)
Theorem positive_trades_keep_shares calls t :
  Forall trades_positive calls ->
  positive_shares (portfolio t) ->
  positive_shares (portfolio (run json_dump calls t)) /\
  all_return json_dump calls t.
Proof.
  intros Hcalls. revert t. unfold run.
  induction Hcalls as [|c calls Hc _ IH]; intros t Hpos; simpl.
  - split; [assumption | exact I].
  - destruct (step_positive_shares json_dump t c Hc Hpos) as [Hpos' Hno].
    destruct (IH _ Hpos') as [Hfinal Hrest]. auto.
Qed.

End Positive.

Lemma positive_trades_keep_shares_witness :
  positive_shares
    (portfolio
       (run Demo.dump
          [(Demo.world, Buy "AAPL" 2 None); (Demo.world, Sell "MSFT" 1 None);
           (Demo.world, Sell "AAPL" 4 None); (Demo.world, Withdraw (-7))]
          Demo.held)).
Proof.
  apply positive_trades_keep_shares; repeat constructor.
Defined.

(** ** Restarting *)

Section Restart.

Context {text : Type}.
Variable json_dump : Portfolio -> text.
Variable json_load : text -> option Portfolio.

(** The law of Python's json module on the documents of the tracker. *)
Hypothesis json_roundtrip : forall p, json_load (json_dump p) = Some p.

Implicit Types (t : @Tracker text).

(** A call that does not raise leaves on disk what it leaves in memory, if
    that was so before. *)
Lemma step_in_sync t c :
  ~ raises json_dump t c ->
  _load_portfolio json_load (portfolio_file t) = Return (portfolio t) ->
  _load_portfolio json_load (portfolio_file (step json_dump t c)) =
    Return (portfolio (step json_dump t c)).
Proof.
  destruct c as [w [amount|amount|sym n price|sym n price]]; simpl;
    intros Hno Hsync.
  - now rewrite json_roundtrip.
  - unfold withdraw_cash. destruct (gtb _ _); simpl;
      [assumption | now rewrite json_roundtrip].
  - revert Hno. unfold buy_stock.
    destruct (resolve_price _ _ _) as [p|]; simpl; [|auto].
    destruct (gtb _ _); simpl; [auto|].
    destruct (find_stock _ _) as [[i pos]|]; simpl;
      [|intros _; now rewrite json_roundtrip].
    destruct (divide _ _); simpl; [intros _; now rewrite json_roundtrip|].
    intros Hno. exfalso. apply Hno. eauto.
  - unfold sell_stock.
    destruct (find_stock _ _) as [[i pos]|]; simpl; [|assumption].
    destruct (gtb _ _); simpl; [assumption|].
    destruct (resolve_price _ _ _) as [p|]; simpl; [|assumption].
    now rewrite json_roundtrip.
Qed.

(** X6.  A restart loses nothing.  Take a tracker as [__init__] made it,
    from a file or from none, and any sequence of calls none of which
    raises.  Then a new tracker started on the file the sequence left is
    the tracker the sequence left: same cash, stocks and log.  ([json.load]
    is assumed to read back what [json.dump] writes.) *)
Theorem restart_reloads file calls t :
  init json_load file = Return t ->
  all_return json_dump calls t ->
  init json_load (portfolio_file (run json_dump calls t)) =
    Return (run json_dump calls t).
Proof.
  intros Hinit Hcalls.
  assert (Hsync : _load_portfolio json_load (portfolio_file t) = Return (portfolio t)).
  { unfold init in Hinit.
    destruct (_load_portfolio json_load file) as [p|] eqn:Hload; simpl in Hinit;
      [|discriminate].
    injection Hinit as <-. exact Hload. }
  clear Hinit. revert t Hcalls Hsync. unfold run.
  induction calls as [|c calls IH]; intros t Hcalls Hsync; simpl.
  - unfold init. rewrite Hsync. simpl. now destruct t.
  - destruct Hcalls as [Hc Hrest]. apply IH; [assumption|].
    now apply step_in_sync.
Qed.

End Restart.

(** No file at first; a deposit, two buys and a rejected withdrawal. *)
Lemma restart_reloads_witness :
  let calls :=
    [(Demo.world, Deposit 1000); (Demo.world, Buy "AAPL" 2 None);
     (Demo.world, Buy "AAPL" 1 (Some 90)); (Demo.world, Withdraw 5000)] in
  let t := mkTracker empty_portfolio None in
  init Demo.load (portfolio_file (run Demo.dump calls t)) =
    Return (run Demo.dump calls t).
Proof.
  cbv zeta.
  apply (restart_reloads Demo.dump Demo.load (fun p => eq_refl) None).
  - reflexivity.
  - simpl. repeat split; intros [e He]; discriminate He.
Defined.

(** ** Calls that undo each other *)

(** A position appended for a symbol that was not held is the one found,
    at the end of the list. *)
Lemma find_stock_snoc sym (l : list Position) pos :
  find_stock sym l = None -> symbol pos = sym ->
  find_stock sym (l ++ [pos]) = Some (length l, pos).
Proof.
  unfold find_stock. intros Hnone Hsym.
  rewrite list_find_app_r by assumption. simpl.
  destruct (decide (symbol pos = sym)); [reflexivity | contradiction].
Qed.

Lemma delete_snoc {A} (l : list A) (x : A) : delete (length l) (l ++ [x]) = l.
Proof. induction l as [|y l IH]; simpl; [reflexivity | now rewrite IH]. Qed.

Section Undo.

Context {text : Type}.
Variable json_dump : Portfolio -> text.

Implicit Types (t : @Tracker text) (w : World) (n amount : Q) (sym : string).

(** X8.  Selling what was just bought.  A buy of [n] shares of a symbol
    that is not held, at [p] and covered by the cash, followed by a sell of
    [n] shares of it at [p'], both return [True]; they leave the list of
    stocks as it was before the buy, and the cash at
    [cash - p * n + p' * n], evaluated in this order as the two methods do
    (which need not be the cash before, even for [p' = p], in an arithmetic
    that rounds).  Of numbers this uses only that, [p * n <= cash] being
    true, [p * n > cash] and [n > n] are false and [n == n] is true. *)
Theorem buy_then_sell w w' sym n price price' p p' t :
  find_stock sym (stocks (portfolio t)) = None ->
  resolve_price w sym price = Some p ->
  resolve_price w' sym price' = Some p' ->
  p * n <= cash (portfolio t) ->
  let t1 := snd (buy_stock json_dump w sym n price t) in
  let t2 := snd (sell_stock json_dump w' sym n price' t1) in
  fst (buy_stock json_dump w sym n price t) = Return true /\
  fst (sell_stock json_dump w' sym n price' t1) = Return true /\
  stocks (portfolio t2) = stocks (portfolio t) /\
  cash (portfolio t2) = cash (portfolio t) - p * n + p' * n.
Proof.
  intros Hfree Hp Hp' Hcash. cbv zeta.
  unfold buy_stock. rewrite Hp.
  apply gtb_false in Hcash. rewrite Hcash. simpl. rewrite Hfree. simpl.
  split; [reflexivity|].
  unfold sell_stock. simpl.
  rewrite (find_stock_snoc sym _ (mkPosition sym n p (today w)) Hfree eq_refl).
  simpl.
  assert (Hn : gtb n n = false) by (apply gtb_false, Qle_refl). rewrite Hn.
  rewrite Hp'. simpl. rewrite Qeq_bool_refl. simpl.
  split; [reflexivity|]. split; [apply delete_snoc | reflexivity].
Qed.

End Undo.

(** 3 TSLA are bought at 10 and sold at 12. *)
Lemma buy_then_sell_witness :
  stocks (portfolio
            (snd (sell_stock Demo.dump Demo.world "TSLA" 3 (Some 12)
                    (snd (buy_stock Demo.dump Demo.world "TSLA" 3 (Some 10)
                            Demo.held)))))
    = stocks (portfolio Demo.held) /\
  cash (portfolio
          (snd (sell_stock Demo.dump Demo.world "TSLA" 3 (Some 12)
                  (snd (buy_stock Demo.dump Demo.world "TSLA" 3 (Some 10)
                          Demo.held)))))
    = cash (portfolio Demo.held) - 10 * 3 + 12 * 3.
Proof.
  destruct (buy_then_sell Demo.dump Demo.world Demo.world "TSLA" 3 (Some 10) (Some 12)
              10 12 Demo.held eq_refl eq_refl eq_refl)
    as (_ & _ & Hstocks & Hcash); [discriminate|].
  split; assumption.
Defined.

(** ** The report, line by line *)

(** A position gets its line when its price is known and its cost basis is
    not zero. *)
Lemma holding_returns w stock :
  (exists r, holding w stock = Return r) <->
  is_Some (get_stock_price w (symbol stock)) /\
  ~ shares stock * avg_price stock == 0.
Proof.
  unfold holding, divide.
  destruct (get_stock_price w (symbol stock)) as [q|]; simpl.
  - destruct (Qeq_bool _ _) eqn:E; simpl.
    + apply Qeq_bool_iff in E. split; [intros [r [=]] | intros [_ H]; contradiction].
    + apply Qeq_bool_neq in E. split; [intros _; split; [eauto | assumption] | eauto].
  - split; [intros [r [=]] | intros [[q [=]] _]].
Qed.

(** The loop returns the lines of the positions, after those it was given,
    and adds their values and cost bases to its two totals. *)
Lemma holdings_returns w l acc tv tc rows tv' tc' :
  holdings w l acc tv tc = Return (rows, tv', tc') ->
  exists new,
    rows = acc ++ new /\
    Forall2 (fun stock r => holding w stock = Return r) l new /\
    tv' = fold_left Qplus (row_current_value <$> new) tv /\
    tc' = fold_left Qplus (row_cost_basis <$> new) tc.
Proof.
  revert acc tv tc. induction l as [|stock l IH]; intros acc tv tc; simpl.
  - intros [= <- <- <-]. exists []. rewrite app_nil_r.
    repeat split. constructor.
  - destruct (holding w stock) as [r|] eqn:Hr; simpl; [|discriminate].
    intros Hloop. destruct (IH _ _ _ Hloop) as (new & -> & Hall & -> & ->).
    exists (r :: new). rewrite <- app_assoc.
    repeat split. now constructor.
Qed.

Lemma lines_of_all w (l : list Position) (rows : list Row) :
  Forall2 (fun stock r => holding w stock = Return r) l rows ->
  Forall (fun stock => exists r, holding w stock = Return r) l.
Proof. induction 1; constructor; eauto. Qed.

(** The loop stops at the first position without a line, with the
    exception of that position. *)
Lemma holdings_raises w l1 stock l2 e acc tv tc :
  Forall (fun s => exists r, holding w s = Return r) l1 ->
  holding w stock = Raise e ->
  holdings w (l1 ++ stock :: l2) acc tv tc = Raise e.
Proof.
  intros Hl1. revert acc tv tc.
  induction Hl1 as [|s l1 [r Hr] _ IH]; intros acc tv tc Hstock; simpl.
  - now rewrite Hstock.
  - rewrite Hr. simpl. now apply IH.
Qed.

Lemma holdings_all w l acc tv tc :
  Forall (fun s => exists r, holding w s = Return r) l ->
  exists res, holdings w l acc tv tc = Return res.
Proof.
  intros Hl. revert acc tv tc.
  induction Hl as [|s l [r Hr] _ IH]; intros acc tv tc; simpl; [eauto|].
  rewrite Hr. simpl. apply IH.
Qed.

(** X10.  [show_portfolio] prints its table and summary exactly when there
    is a position, every position has a price from the API and no position
    has a cost basis (shares times average price) of zero. *)
Theorem show_portfolio_returns w p :
  (exists rows s, show_portfolio w p = Return (Some (rows, s))) <->
  stocks p <> [] /\
  Forall (fun stock => is_Some (get_stock_price w (symbol stock)) /\
                       ~ shares stock * avg_price stock == 0) (stocks p).
Proof.
  unfold show_portfolio. destruct (stocks p) as [|stock l] eqn:Hst.
  { split; [intros (rows & s & H); discriminate H | intros [H _]; now destruct H]. }
  assert (Hne : stocks p <> []) by (rewrite Hst; discriminate).
  rewrite <- Hst. clear Hst stock l. split.
  - intros (rows & s & Hret). split; [assumption|].
    destruct (holdings w (stocks p) [] 0 0) as [[[data tv] tc]|] eqn:Hloop;
      simpl in Hret; [|discriminate].
    apply holdings_returns in Hloop as (new & _ & Hall & _).
    eapply Forall_impl; [exact (lines_of_all w _ _ Hall)|].
    intros st. apply holding_returns.
  - intros [_ Hall].
    assert (Hlines : Forall (fun s => exists r, holding w s = Return r) (stocks p))
      by (eapply Forall_impl; [exact Hall | intros st; apply holding_returns]).
    destruct (holdings_all w _ [] 0 0 Hlines) as ([[data tv] tc] & ->). simpl. eauto.
Qed.

(** What a line holds: the expressions of the loop. *)
Lemma holding_line w stock r :
  holding w stock = Return r ->
  row_symbol r = symbol stock /\
  row_shares r = shares stock /\
  row_avg_price r = avg_price stock /\
  get_stock_price w (symbol stock) = Some (row_current_price r) /\
  row_cost_basis r = shares stock * avg_price stock /\
  row_current_value r = shares stock * row_current_price r /\
  row_gain_loss r = row_current_value r - row_cost_basis r /\
  row_gain_loss_pct r = row_gain_loss r / row_cost_basis r * 100.
Proof.
  unfold holding, divide.
  destruct (get_stock_price w (symbol stock)) as [q|]; simpl; [|discriminate].
  destruct (Qeq_bool _ _); simpl; [discriminate|].
  intros [= <-]. simpl. repeat split.
Qed.

(** X11.  The report is made line by line.  When [show_portfolio] prints,
    the table has one line per position, in the order of the portfolio,
    with the position's symbol, shares and average price, the price the
    API gave, cost basis [shares * avg_price], value [shares * price],
    gain [value - cost basis] and percentage [gain / cost basis * 100].
    In the summary, the total value and the total cost are the values and
    the cost bases of the lines added up from 0 in the order of the table,
    the total with cash is [total value + cash], the total gain is
    [total value - total cost], and the percentage is
    [total gain / total cost * 100] when [total cost > 0] and 0 otherwise.
    Every figure is given as the expression the method evaluates, so the
    equalities are [=] and hold in any arithmetic. *)
Theorem report_adds_up w p rows s :
  show_portfolio w p = Return (Some (rows, s)) ->
  Forall2
    (fun stock r =>
       row_symbol r = symbol stock /\
       row_shares r = shares stock /\
       row_avg_price r = avg_price stock /\
       get_stock_price w (symbol stock) = Some (row_current_price r) /\
       row_cost_basis r = shares stock * avg_price stock /\
       row_current_value r = shares stock * row_current_price r /\
       row_gain_loss r = row_current_value r - row_cost_basis r /\
       row_gain_loss_pct r = row_gain_loss r / row_cost_basis r * 100)
    (stocks p) rows /\
  total_value s = fold_left Qplus (row_current_value <$> rows) 0 /\
  total_cost s = fold_left Qplus (row_cost_basis <$> rows) 0 /\
  cash_balance s = cash p /\
  total_with_cash s = total_value s + cash p /\
  total_gain_loss s = total_value s - total_cost s /\
  total_gain_loss_pct s =
    (if gtb (total_cost s) 0 then total_gain_loss s / total_cost s * 100 else 0).
Proof.
  unfold show_portfolio. destruct (stocks p) as [|stock l] eqn:Hst; [discriminate|].
  rewrite <- Hst. clear Hst stock l.
  destruct (holdings w (stocks p) [] 0 0) as [[[data tv] tc]|] eqn:Hloop;
    simpl; [|discriminate].
  apply holdings_returns in Hloop as (new & Hrows & Hall & Hv & Hc).
  simpl in Hrows. subst data tv tc. intros [= <- <-]. simpl.
  split; [|repeat split].
  eapply Forall2_impl; [exact Hall|]. intros st r. apply holding_line.
Qed.

(** X12.  The report stops at the first position it cannot value: with
    [TypeError] when the API has no price for it, and with
    [ZeroDivisionError] when it has one and the cost basis of the position
    is zero.  Nothing is printed for the positions before it. *)
Theorem show_portfolio_first_failure w p l1 stock l2 :
  stocks p = l1 ++ stock :: l2 ->
  Forall (fun s => is_Some (get_stock_price w (symbol s)) /\
                   ~ shares s * avg_price s == 0) l1 ->
  (get_stock_price w (symbol stock) = None ->
   show_portfolio w p = Raise TypeError) /\
  (is_Some (get_stock_price w (symbol stock)) ->
   shares stock * avg_price stock == 0 ->
   show_portfolio w p = Raise ZeroDivisionError).
Proof.
  intros Hst Hl1.
  assert (Hlines : Forall (fun s => exists r, holding w s = Return r) l1)
    by (eapply Forall_impl; [exact Hl1 | intros st; apply holding_returns]).
  assert (Hshow : forall e, holding w stock = Raise e -> show_portfolio w p = Raise e).
  { intros e He. unfold show_portfolio. rewrite Hst.
    rewrite (holdings_raises w l1 stock l2 e [] 0 0 Hlines He).
    now destruct l1. }
  split.
  - intros Hnone. apply Hshow. unfold holding. now rewrite Hnone.
  - intros [q Hq] Hzero. apply Hshow. now apply (holding_zero_cost_basis w stock q).
Qed.

Lemma show_portfolio_returns_witness :
  exists rows s, show_portfolio Demo.world (portfolio Demo.held) = Return (Some (rows, s)).
Proof.
  apply show_portfolio_returns. split; [discriminate|].
  repeat constructor; solve [eexists; reflexivity | discriminate].
Defined.

Lemma report_adds_up_witness :
  exists rows s,
    show_portfolio Demo.world (portfolio Demo.held) = Return (Some (rows, s)) /\
    total_value s = fold_left Qplus (row_current_value <$> rows) 0 /\
    total_cost s = fold_left Qplus (row_cost_basis <$> rows) 0.
Proof.
  assert (H : exists rows s,
             show_portfolio Demo.world (portfolio Demo.held) = Return (Some (rows, s)))
    by (vm_compute; eauto).
  destruct H as (rows & s & H). exists rows, s. split; [exact H|].
  destruct (report_adds_up Demo.world (portfolio Demo.held) rows s H)
    as (_ & Hv & Hc & _).
  split; assumption.
Defined.

(** AAPL has a price, TSLA has none. *)
Lemma show_portfolio_first_failure_witness :
  show_portfolio Demo.world
    (mkPortfolio [Demo.aapl 2 100; mkPosition "TSLA" 1 10 "2024-01-01"] [] 0)
  = Raise TypeError.
Proof.
  apply (show_portfolio_first_failure Demo.world
           (mkPortfolio [Demo.aapl 2 100; mkPosition "TSLA" 1 10 "2024-01-01"] [] 0)
           [Demo.aapl 2 100] (mkPosition "TSLA" 1 10 "2024-01-01") [] eq_refl).
  - repeat constructor; solve [eexists; reflexivity | discriminate].
  - reflexivity.
Defined.

(** ** The chart *)

(** The loop of the chart takes, for every position, the line the report
    has for it. *)
Lemma chart_series_of_lines w (l : list Position) (rows : list Row) labels values costs :
  Forall2 (fun stock r => holding w stock = Return r) l rows ->
  chart_series w l labels values costs =
    Return (labels ++ (row_symbol <$> rows),
            values ++ (row_current_value <$> rows),
            costs ++ (row_cost_basis <$> rows)).
Proof.
  intros Hall. revert labels values costs.
  induction Hall as [|st r l rows Hr _ IH]; intros labels values costs; simpl.
  - now rewrite !app_nil_r.
  - destruct (holding_line w st r Hr) as (Hsym & _ & _ & Hq & Hc & Hv & _).
    rewrite Hq, IH, <- !app_assoc. simpl. now rewrite Hsym, Hc, Hv.
Qed.

(** The loop of the chart fails only for want of a price. *)
Lemma chart_series_outcome w (l : list Position) labels values costs :
  (Forall (fun stock => is_Some (get_stock_price w (symbol stock))) l ->
   exists series, chart_series w l labels values costs = Return series) /\
  (~ Forall (fun stock => is_Some (get_stock_price w (symbol stock))) l ->
   chart_series w l labels values costs = Raise TypeError).
Proof.
  revert labels values costs.
  induction l as [|st l IH]; intros labels values costs; simpl.
  - split; [eauto | intros H; now destruct H].
  - destruct (get_stock_price w (symbol st)) as [q|] eqn:Hq.
    + destruct (IH (labels ++ [symbol st]) (values ++ [shares st * q])
                   (costs ++ [shares st * avg_price st])) as [Hok Hko].
      split.
      * intros Hall. apply Hok. now apply Forall_cons_1 in Hall.
      * intros Hnot. apply Hko. intros Hall. apply Hnot.
        constructor; [rewrite Hq; eauto | assumption].
    + split; [|reflexivity].
      intros Hall. apply Forall_cons_1 in Hall as [[q' Hq'] _]. congruence.
Qed.

(** X14.  [generate_performance_chart] gets its three series together, and
    so reaches the drawing, exactly when there is a position and the API
    has a price for every position; a position of zero cost basis does not
    stop it.  With no position it draws nothing and returns; with a
    position that has no price it raises [TypeError]. *)
Theorem generate_performance_chart_outcome w p :
  ((exists series, generate_performance_chart w p = Return (Some series)) <->
   stocks p <> [] /\
   Forall (fun stock => is_Some (get_stock_price w (symbol stock))) (stocks p)) /\
  (stocks p = [] <-> generate_performance_chart w p = Return None) /\
  (stocks p <> [] ->
   ~ Forall (fun stock => is_Some (get_stock_price w (symbol stock))) (stocks p) ->
   generate_performance_chart w p = Raise TypeError).
Proof.
  unfold generate_performance_chart.
  destruct (stocks p) as [|st l] eqn:Hst.
  { split; [split|split; [split|]].
    - intros [series H]. discriminate H.
    - intros [H _]. now destruct H.
    - reflexivity.
    - reflexivity.
    - intros H. now destruct H. }
  rewrite <- Hst.
  assert (Hne : stocks p <> []) by (rewrite Hst; discriminate). clear Hst st l.
  destruct (chart_series_outcome w (stocks p) [] [] []) as [Hok Hko].
  destruct (decide (Forall (fun stock => is_Some (get_stock_price w (symbol stock)))
                           (stocks p))) as [Hall|Hnot].
  - destruct (Hok Hall) as [series Hs]. rewrite Hs. simpl.
    split; [split; eauto|]. split; [split; [intros H; contradiction | discriminate]|].
    intros _ Hnot. contradiction.
  - rewrite (Hko Hnot). simpl.
    split; [split|split; [split|]].
    + intros [series H]. discriminate H.
    + intros [_ Hall]. contradiction.
    + intros H. contradiction.
    + discriminate.
    + reflexivity.
Qed.

(** X15.  The chart draws the report.  On the prices the report was printed
    with, the series handed to the drawing are the symbols, current values
    and cost bases of the lines of the report, in their order. *)
Theorem chart_draws_report w p rows s :
  show_portfolio w p = Return (Some (rows, s)) ->
  generate_performance_chart w p =
    Return (Some (row_symbol <$> rows, row_current_value <$> rows,
                  row_cost_basis <$> rows)).
Proof.
  unfold show_portfolio, generate_performance_chart.
  destruct (stocks p) as [|st l] eqn:Hst; [discriminate|].
  rewrite <- Hst. clear Hst st l.
  destruct (holdings w (stocks p) [] 0 0) as [[[data tv] tc]|] eqn:Hloop;
    simpl; [|discriminate].
  apply holdings_returns in Hloop as (new & Hrows & Hall & _).
  simpl in Hrows. subst data. intros [= <- _].
  now rewrite (chart_series_of_lines w _ new [] [] [] Hall).
Qed.

Lemma chart_draws_report_witness :
  generate_performance_chart Demo.world (portfolio Demo.held) =
    Return (Some (["AAPL"; "MSFT"], [2 * 150; 3 * 300], [2 * 100; 3 * 50])).
Proof.
  assert (H : exists rows s,
             show_portfolio Demo.world (portfolio Demo.held) = Return (Some (rows, s)))
    by (vm_compute; eauto).
  destruct H as (rows & s & H).
  rewrite (chart_draws_report Demo.world (portfolio Demo.held) rows s H).
  revert H. vm_compute. intros [= <- _]. reflexivity.
Defined.

(** ** The transaction listing *)

Lemma string_ltb_leb (a b : string) : String.ltb a b = true -> String.leb a b = true.
Proof. unfold String.ltb, String.leb. now destruct (String.compare a b). Qed.

Lemma string_not_ltb_leb (a b : string) :
  String.ltb a b = false -> String.leb b a = true.
Proof.
  unfold String.ltb, String.leb. rewrite (String.compare_antisym a b).
  now destruct (String.compare b a).
Qed.

Lemma string_ltb_irrefl (a : string) : String.ltb a a = false.
Proof.
  unfold String.ltb. pose proof (String.compare_antisym a a) as H.
  destruct (String.compare a a); [reflexivity | discriminate H | reflexivity].
Qed.

Lemma insert_by_date_perm x l : insert_by_date x l ≡ₚ x :: l.
Proof.
  induction l as [|y l IH]; simpl; [reflexivity|].
  destruct (String.ltb _ _); [|reflexivity].
  rewrite IH. apply Permutation_swap.
Qed.

Lemma sorted_by_date_perm l : sorted_by_date l ≡ₚ l.
Proof.
  induction l as [|x l IH]; simpl; [reflexivity|].
  now rewrite insert_by_date_perm, IH.
Qed.

Lemma insert_by_date_sorted x l :
  Sorted newer_first l -> Sorted newer_first (insert_by_date x l).
Proof.
  induction 1 as [|y l Hl IH Hhd]; simpl; [repeat constructor|].
  destruct (String.ltb (date x) (date y)) eqn:E.
  - constructor; [exact IH|].
    destruct l as [|z l]; simpl.
    + constructor. now apply string_ltb_leb.
    + destruct (String.ltb (date x) (date z)); constructor.
      * now inversion Hhd.
      * now apply string_ltb_leb.
  - constructor; [now constructor|]. constructor. now apply string_not_ltb_leb.
Qed.

Lemma sorted_by_date_sorted l : Sorted newer_first (sorted_by_date l).
Proof.
  induction l as [|x l IH]; simpl; [constructor | now apply insert_by_date_sorted].
Qed.

Lemma Sorted_take {A} (R : A -> A -> Prop) (l : list A) (k : nat) :
  Sorted R l -> Sorted R (take k l).
Proof.
  intros Hl. revert k. induction Hl as [|x l Hl IH Hhd]; intros [|k]; simpl;
    try constructor.
  - apply IH.
  - destruct Hhd as [|y l Hxy]; destruct k; simpl; constructor. exact Hxy.
Qed.

(** The sort keeps the transactions of one date in the order of the log. *)
Lemma insert_by_date_stable d x l :
  filter (fun tr => date tr = d) (insert_by_date x l) =
  filter (fun tr => date tr = d) (x :: l).
Proof.
  induction l as [|y l IH]; simpl; [reflexivity|].
  destruct (String.ltb (date x) (date y)) eqn:E; [|reflexivity].
  rewrite (filter_cons _ y), IH, !filter_cons.
  destruct (decide (date x = d)) as [Hx|Hx], (decide (date y = d)) as [Hy|Hy];
    try reflexivity.
  rewrite Hx, Hy, string_ltb_irrefl in E. discriminate.
Qed.

Lemma sorted_by_date_stable d l :
  filter (fun tr => date tr = d) (sorted_by_date l) =
  filter (fun tr => date tr = d) l.
Proof.
  induction l as [|x l IH]; simpl; [reflexivity|].
  now rewrite insert_by_date_stable, !filter_cons, IH.
Qed.

(** A transaction older than all of a list goes to its end. *)
Lemma insert_by_date_oldest x l :
  Forall (fun y => String.ltb (date x) (date y) = true) l ->
  insert_by_date x l = l ++ [x].
Proof.
  induction 1 as [|y l Hy _ IH]; simpl; [reflexivity|]. now rewrite Hy, IH.
Qed.

Lemma sorted_by_date_chronological l :
  StronglySorted (fun a b => String.ltb (date a) (date b) = true) l ->
  sorted_by_date l = reverse l.
Proof.
  induction 1 as [|x l _ IH Hx]; simpl; [reflexivity|].
  rewrite IH, reverse_cons. apply insert_by_date_oldest.
  apply Forall_forall. intros y Hy. rewrite elem_of_reverse in Hy.
  exact (proj1 (Forall_forall _ _) Hx y Hy).
Qed.

Lemma date_transaction_row tr : tr_date (transaction_row tr) = date tr.
Proof. now destruct tr. Qed.

(** X16.  The listing shows logged transactions, newest first.  When there
    is a transaction, [show_transactions] prints the lines of a selection of
    the logged transactions, each at most as often as it is logged, in an
    order where no line is dated before the next one.  It prints
    [min(limit, len)] lines for a limit >= 0, and all but the last [-limit]
    for a negative limit; with a limit of at least [len] every logged
    transaction is shown. *)
Theorem show_transactions_newest_first limit p :
  transactions p <> [] ->
  exists shown,
    show_transactions limit p = Some (transaction_row <$> shown) /\
    shown ⊆+ transactions p /\
    Sorted newer_first shown /\
    length shown =
      (if (0 <=? limit)%Z
       then Nat.min (Z.to_nat limit) (length (transactions p))
       else length (transactions p) - Z.to_nat (- limit))%nat /\
    ((Z.of_nat (length (transactions p)) <= limit)%Z -> shown ≡ₚ transactions p).
Proof.
  intros Hne. unfold show_transactions.
  destruct (transactions p) as [|tr l] eqn:Hlog; [now destruct Hne|].
  rewrite <- Hlog. clear Hlog tr l Hne.
  exists (slice_to limit (sorted_by_date (transactions p))).
  pose proof (sorted_by_date_perm (transactions p)) as Hperm.
  pose proof (Permutation_length Hperm) as Hlen.
  split; [reflexivity|]. unfold slice_to.
  destruct (0 <=? limit)%Z eqn:Hsign.
  - repeat split.
    + etrans; [apply submseteq_take | now apply Permutation_submseteq].
    + apply Sorted_take, sorted_by_date_sorted.
    + now rewrite length_take, Hlen.
    + intros Hall. rewrite take_ge by lia. exact Hperm.
  - apply Z.leb_gt in Hsign. repeat split.
    + etrans; [apply submseteq_take | now apply Permutation_submseteq].
    + apply Sorted_take, sorted_by_date_sorted.
    + rewrite length_take, Hlen. lia.
    + lia.
Qed.

Lemma filter_transaction_rows d (l : list Transaction) :
  filter (fun r => tr_date r = d) (transaction_row <$> l) =
  transaction_row <$> filter (fun tr => date tr = d) l.
Proof.
  induction l as [|tr l IH]; [reflexivity|].
  rewrite fmap_cons, !filter_cons, date_transaction_row.
  destruct (decide (date tr = d)); [rewrite fmap_cons|]; now rewrite IH.
Qed.

(** X17.  Transactions of one time stamp are listed in the order of the
    log, the oldest of them first, although the listing as a whole is
    newest first: when the limit cuts nothing off, the lines dated [d] are
    the lines of the transactions dated [d], in the order they were
    logged. *)
Theorem show_transactions_same_date limit p rows d :
  show_transactions limit p = Some rows ->
  (Z.of_nat (length (transactions p)) <= limit)%Z ->
  filter (fun r => tr_date r = d) rows =
    transaction_row <$> filter (fun tr => date tr = d) (transactions p).
Proof.
  unfold show_transactions.
  destruct (transactions p) as [|tr l] eqn:Hlog; [discriminate|].
  rewrite <- Hlog. clear Hlog tr l. intros [= <-] Hall.
  pose proof (Permutation_length (sorted_by_date_perm (transactions p))) as Hlen.
  unfold slice_to. destruct (0 <=? limit)%Z eqn:Hsign; [|lia].
  rewrite take_ge by lia.
  now rewrite filter_transaction_rows, sorted_by_date_stable.
Qed.

(** X18.  With a log in which every transaction is dated after the ones
    before it, the listing for a limit >= 0 is the last [limit]
    transactions of the log, the newest first. *)
Theorem show_transactions_chronological limit p :
  transactions p <> [] ->
  (0 <= limit)%Z ->
  StronglySorted (fun a b => String.ltb (date a) (date b) = true) (transactions p) ->
  show_transactions limit p =
    Some (transaction_row <$> take (Z.to_nat limit) (reverse (transactions p))).
Proof.
  intros Hne Hlimit Hlog. unfold show_transactions.
  destruct (transactions p) as [|tr l] eqn:Heq; [now destruct Hne|].
  rewrite <- Heq in *. rewrite (sorted_by_date_chronological _ Hlog).
  unfold slice_to. now rewrite (proj2 (Z.leb_le 0 limit) Hlimit).
Qed.

(** A log of a deposit, two buys in one second and a withdrawal. *)
Lemma show_transactions_newest_first_witness :
  exists shown,
    show_transactions 10
      (mkPortfolio []
         [cash_deposit 500 "2024-01-02 10:00:00";
          buy "AAPL" 1 100 100 "2024-01-02 10:00:05";
          buy "MSFT" 1 50 50 "2024-01-02 10:00:05";
          cash_withdrawal 20 "2024-01-03 09:00:00"] 330)
    = Some (transaction_row <$> shown) /\
    Sorted newer_first shown.
Proof.
  destruct (show_transactions_newest_first 10
              (mkPortfolio []
                 [cash_deposit 500 "2024-01-02 10:00:00";
                  buy "AAPL" 1 100 100 "2024-01-02 10:00:05";
                  buy "MSFT" 1 50 50 "2024-01-02 10:00:05";
                  cash_withdrawal 20 "2024-01-03 09:00:00"] 330))
    as (shown & Hshow & _ & Hsorted & _); [discriminate|].
  exists shown. split; assumption.
Defined.

(** The two buys of 10:00:05 are listed AAPL first, as logged. *)
Lemma show_transactions_same_date_witness :
  exists rows,
    show_transactions 10
      (mkPortfolio []
         [cash_deposit 500 "2024-01-02 10:00:00";
          buy "AAPL" 1 100 100 "2024-01-02 10:00:05";
          buy "MSFT" 1 50 50 "2024-01-02 10:00:05";
          cash_withdrawal 20 "2024-01-03 09:00:00"] 330) = Some rows /\
    filter (fun r => tr_date r = "2024-01-02 10:00:05") rows =
      [transaction_row (buy "AAPL" 1 100 100 "2024-01-02 10:00:05");
       transaction_row (buy "MSFT" 1 50 50 "2024-01-02 10:00:05")].
Proof.
  eexists. split; [reflexivity|].
  rewrite (show_transactions_same_date 10
             (mkPortfolio []
                [cash_deposit 500 "2024-01-02 10:00:00";
                 buy "AAPL" 1 100 100 "2024-01-02 10:00:05";
                 buy "MSFT" 1 50 50 "2024-01-02 10:00:05";
                 cash_withdrawal 20 "2024-01-03 09:00:00"] 330)
             _ "2024-01-02 10:00:05" eq_refl); [reflexivity | simpl; lia].
Defined.

(** Three transactions a second apart, limit 2: the last two, newest first. *)
Lemma show_transactions_chronological_witness :
  show_transactions 2
    (mkPortfolio []
       [cash_deposit 500 "2024-01-02 10:00:00";
        buy "AAPL" 1 100 100 "2024-01-02 10:00:01";
        cash_withdrawal 20 "2024-01-02 10:00:02"] 380)
  = Some [transaction_row (cash_withdrawal 20 "2024-01-02 10:00:02");
          transaction_row (buy "AAPL" 1 100 100 "2024-01-02 10:00:01")].
Proof.
  apply (show_transactions_chronological 2
           (mkPortfolio []
              [cash_deposit 500 "2024-01-02 10:00:00";
               buy "AAPL" 1 100 100 "2024-01-02 10:00:01";
               cash_withdrawal 20 "2024-01-02 10:00:02"] 380)).
  - discriminate.
  - lia.
  - repeat constructor.
Defined.

(** ** Sessions at the menu *)

Section Sessions.

Context {text : Type}.
Variable json_dump : Portfolio -> text.
Variable float : string -> option Q.
Variable upper : string -> string.

Implicit Types (t : @Tracker text) (lines : list string) (worlds : nat -> World).




End Sessions.



(** The session ends at choice 8 with 3 AAPL in the portfolio. *)
Example demo_session :
  main Demo.dump Demo.load Demo.float Demo.upper (fun _ => Demo.world) None Demo.session
  = (Exited,
     Some (run Demo.dump
             [(Demo.world, Deposit 1000); (Demo.world, Buy "AAPL" 3 None)]
             (mkTracker empty_portfolio None))).
Proof. vm_compute. reflexivity. Qed.

(** * The word-guessing game *)

Lemma all_guessed_spec word (g : gset string) :
  Hangman.all_guessed word g = true <->
  forall letter, letter ∈ Hangman.letters word -> letter ∈ g.
Proof.
  unfold Hangman.all_guessed. rewrite forallb_forall. split.
  - intros H letter Hin. apply list_elem_of_In in Hin.
    specialize (H letter Hin). now apply bool_decide_eq_true in H.
  - intros H letter Hin. apply bool_decide_eq_true, H. now apply list_elem_of_In.
Qed.

Lemma letter_length word letter :
  letter ∈ Hangman.letters word -> String.length letter = 1%nat.
Proof.
  unfold Hangman.letters. intros (c & -> & _)%list_elem_of_fmap. reflexivity.
Qed.

(** A letter of the word occurs in the word. *)
Lemma occurs_letter word letter :
  letter ∈ Hangman.letters word -> Hangman.occurs letter word = true.
Proof.
  unfold Hangman.letters, Hangman.occurs.
  intros (c & -> & Hc)%list_elem_of_fmap.
  induction word as [|b word IH]; simpl in Hc; [now apply elem_of_nil in Hc|].
  cbn [String.index]. cbn [String.prefix].
  destruct (Ascii.ascii_dec c b) as [Heq|Hne].
  - destruct word; reflexivity.
  - apply elem_of_cons in Hc as [->|Hc]; [contradiction|].
    specialize (IH Hc).
    destruct (String.index 0 (String c "") word); [reflexivity | discriminate].
Qed.

(** A guess that is no single letter changes nothing in what is shown or
    in whether the word is complete. *)
Lemma long_guess_shows_nothing word guess (g : gset string) :
  String.length guess <> 1%nat ->
  Hangman.display_word word ({[guess]} ∪ g) = Hangman.display_word word g /\
  Hangman.all_guessed word ({[guess]} ∪ g) = Hangman.all_guessed word g.
Proof.
  intros Hlen.
  assert (Hmem : forall letter, letter ∈ Hangman.letters word ->
                   (letter ∈ {[guess]} ∪ g <-> letter ∈ g)).
  { intros letter Hin. apply letter_length in Hin.
    rewrite elem_of_union, elem_of_singleton. split; [|auto].
    intros [->|H]; [contradiction | assumption]. }
  unfold Hangman.display_word, Hangman.all_guessed. split.
  - f_equal. apply list_fmap_ext. intros i letter Hi.
    apply list_elem_of_lookup_2 in Hi. specialize (Hmem letter Hi).
    destruct (decide (letter ∈ {[guess]} ∪ g)), (decide (letter ∈ g)); tauto.
  - induction (Hangman.letters word) as [|letter l IH]; [reflexivity|]. simpl.
    rewrite IH by (intros; apply Hmem; now right). f_equal.
    apply bool_decide_ext, Hmem. now left.
Qed.

(** A new guess that occurs in the word is no wrong guess; one that does
    not is one more. *)
Lemma wrong_add_good word guess (g : gset string) :
  Hangman.occurs guess word = true ->
  Hangman.wrong word ({[guess]} ∪ g) = Hangman.wrong word g.
Proof.
  intros Hocc. unfold Hangman.wrong. apply set_eq. intros x.
  rewrite !elem_of_filter, elem_of_union, elem_of_singleton.
  split; [|tauto]. intros [Hx [->|Hin]]; [congruence | tauto].
Qed.

Lemma wrong_add_bad word guess (g : gset string) :
  Hangman.occurs guess word = false -> guess ∉ g ->
  size (Hangman.wrong word ({[guess]} ∪ g)) = S (size (Hangman.wrong word g)).
Proof.
  intros Hocc Hnew.
  assert (Heq : Hangman.wrong word ({[guess]} ∪ g) = {[guess]} ∪ Hangman.wrong word g).
  { unfold Hangman.wrong. apply set_eq. intros x.
    rewrite elem_of_union, !elem_of_filter, elem_of_union, elem_of_singleton.
    split; [tauto|]. intros [->|[? ?]]; auto. }
  rewrite Heq, size_union, size_singleton; [reflexivity|].
  apply disjoint_singleton_l. unfold Hangman.wrong. rewrite elem_of_filter. tauto.
Qed.

Section Playing.

Variable lower : string -> string.

Implicit Types (g : gset string) (word : string) (lines : list string).

(** X21.  Attempts are lost to wrong guesses only, once each.  However a
    game goes, the guesses made are kept, and the attempts left plus the
    number of distinct guesses that do not occur in the word stay what they
    were: a guess repeated, or one that occurs in the word, costs nothing,
    a new wrong guess costs one attempt. *)
Theorem play_attempts word g attempts lines e g' attempts' :
  Hangman.play lower word g attempts lines = (e, g', attempts') ->
  g ⊆ g' /\
  (attempts' + size (Hangman.wrong word g') =
   attempts + size (Hangman.wrong word g))%nat.
Proof.
  revert g attempts. induction lines as [|line lines IH]; intros g attempts.
  - destruct attempts; simpl; intros [= <- <- <-]; auto.
  - destruct attempts as [|a]; simpl; [intros [= <- <- <-]; auto|].
    generalize (lower line). intros guess.
    assert (Hend : forall g1 a1,
               g ⊆ g1 ->
               (a1 + size (Hangman.wrong word g1) =
                S a + size (Hangman.wrong word g))%nat ->
               (if Hangman.all_guessed word g1 then (Hangman.Won, g1, a1)
                else Hangman.play lower word g1 a1 lines) = (e, g', attempts') ->
               g ⊆ g' /\
               (attempts' + size (Hangman.wrong word g') =
                S a + size (Hangman.wrong word g))%nat).
    { intros g1 a1 Hsub Hcount.
      destruct (Hangman.all_guessed word g1).
      - intros [= <- <- <-]. auto.
      - intros Hplay. destruct (IH _ _ Hplay) as [Hsub' Hcount'].
        split; [now transitivity g1 | lia]. }
    destruct (decide (guess ∈ g)) as [Hin|Hnew]; [apply Hend; auto|].
    destruct (Hangman.occurs guess word) eqn:Hocc; apply Hend;
      try apply union_subseteq_r.
    + now rewrite wrong_add_good.
    + rewrite wrong_add_bad by assumption. lia.
Qed.

(** X22.  How a game ends tells its state.  From a state in which the
    word is not complete, the game is won exactly when every letter of the
    word is among the guesses at the end, and lost exactly when no attempt
    is left; so a game that is won has an attempt left, and a game that
    runs out of input has the word incomplete and an attempt left. *)
Theorem play_ending word g attempts lines e g' attempts' :
  Hangman.all_guessed word g = false ->
  Hangman.play lower word g attempts lines = (e, g', attempts') ->
  (e = Hangman.Won <-> Hangman.all_guessed word g' = true) /\
  (e = Hangman.Lost <-> attempts' = 0%nat).
Proof.
  revert g attempts. induction lines as [|line lines IH]; intros g attempts Hopen.
  - destruct attempts; simpl; intros [= <- <- <-];
      (split; split; congruence).
  - destruct attempts as [|a]; simpl;
      [intros [= <- <- <-]; split; split; congruence|].
    generalize (lower line). intros guess.
    assert (Hend : forall g1 a1,
               (Hangman.all_guessed word g1 = true -> (0 < a1)%nat) ->
               (if Hangman.all_guessed word g1 then (Hangman.Won, g1, a1)
                else Hangman.play lower word g1 a1 lines) = (e, g', attempts') ->
               (e = Hangman.Won <-> Hangman.all_guessed word g' = true) /\
               (e = Hangman.Lost <-> attempts' = 0%nat)).
    { intros g1 a1 Hleft.
      destruct (Hangman.all_guessed word g1) eqn:Hall.
      - intros [= <- <- <-]. specialize (Hleft eq_refl).
        split; split; try congruence; try tauto. lia.
      - now apply IH. }
    destruct (decide (guess ∈ g)) as [Hin|Hnew]; [apply Hend; intros; lia|].
    destruct (Hangman.occurs guess word) eqn:Hocc; apply Hend; [intros; lia|].
    intros Hall. exfalso.
    assert (Hg : Hangman.all_guessed word g = true); [|congruence].
    apply all_guessed_spec. intros letter Hletter.
    pose proof (proj1 (all_guessed_spec word _) Hall letter Hletter) as Hin.
    apply elem_of_union in Hin as [->%elem_of_singleton|Hin]; [|assumption].
    apply occurs_letter in Hletter. congruence.
Qed.

(** X23.  A guess that is no single letter and occurs in the word (the
    word itself, a part of it, or an empty line) counts as a good guess: it
    costs no attempt, and it shows nothing and wins nothing, since what the
    display shows and whether the word is complete are as before. *)
Theorem long_guess word g a line lines :
  String.length (lower line) <> 1%nat ->
  Hangman.occurs (lower line) word = true ->
  Hangman.all_guessed word g = false ->
  Hangman.play lower word g (S a) (line :: lines) =
    Hangman.play lower word ({[lower line]} ∪ g) (S a) lines /\
  Hangman.display_word word ({[lower line]} ∪ g) = Hangman.display_word word g /\
  Hangman.all_guessed word ({[lower line]} ∪ g) = false.
Proof.
  intros Hlen Hocc Hopen.
  destruct (long_guess_shows_nothing word (lower line) g Hlen) as [Hshow Hall].
  split; [|split; [exact Hshow | congruence]].
  simpl. destruct (decide (lower line ∈ g)) as [Hin|Hnew].
  - assert (Heq : {[lower line]} ∪ g = g)
      by (apply subseteq_union_1_L, singleton_subseteq_l, Hin).
    rewrite Heq, Hopen. reflexivity.
  - rewrite Hocc, Hall, Hopen. reflexivity.
Qed.

End Playing.

(** "z" and "q" are wrong, "Z" is "z" again. *)
Lemma play_attempts_witness :
  exists e g' attempts',
    Hangman.play Demo.lower "python" ∅ 6 ["p"; "z"; "Z"; "q"] = (e, g', attempts') /\
    (attempts' + size (Hangman.wrong "python" g') =
     6 + size (Hangman.wrong "python" ∅))%nat.
Proof.
  destruct (Hangman.play Demo.lower "python" ∅ 6 ["p"; "z"; "Z"; "q"])
    as [[e g'] attempts'] eqn:Hplay.
  exists e, g', attempts'. split; [reflexivity|].
  exact (proj2 (play_attempts Demo.lower _ _ _ _ _ _ _ Hplay)).
Defined.

Lemma play_ending_witness :
  exists e g' attempts',
    Hangman.play Demo.lower "python" ∅ 6 ["p"; "y"; "t"; "h"; "o"; "n"]
      = (e, g', attempts') /\
    (e = Hangman.Won <-> Hangman.all_guessed "python" g' = true).
Proof.
  destruct (Hangman.play Demo.lower "python" ∅ 6 ["p"; "y"; "t"; "h"; "o"; "n"])
    as [[e g'] attempts'] eqn:Hplay.
  exists e, g', attempts'. split; [reflexivity|].
  exact (proj1 (play_ending Demo.lower "python" ∅ 6 _ _ _ _ eq_refl Hplay)).
Defined.

(** Typing the word itself. *)
Lemma long_guess_witness :
  Hangman.play Demo.lower "python" ∅ 6 ["Python"; "p"] =
    Hangman.play Demo.lower "python" {["python"]} 6 ["p"] /\
  Hangman.display_word "python" {["python"]} = Hangman.display_word "python" ∅.
Proof.
  destruct (long_guess Demo.lower "python" ∅ 5 "Python" ["p"])
    as (Hplay & Hshow & _); [discriminate | reflexivity | reflexivity |].
  rewrite (right_id_L ∅ (∪)) in Hplay, Hshow. split; assumption.
Defined.

(** Nothing is shown at first. *)
Example display_python : Hangman.display_word "python" ∅ = "_ _ _ _ _ _".
Proof. reflexivity. Qed.

Lemma run_unique_symbols_witness :
  unique_symbols
    (portfolio
       (run Demo.dump
          [(Demo.world, Buy "AAPL" 1 None); (Demo.world, Buy "TSLA" 2 (Some 10));
           (Demo.world, Sell "MSFT" 3 None)] Demo.held)).
Proof.
  apply run_unique_symbols. unfold unique_symbols. simpl.
  repeat constructor; rewrite ?elem_of_cons, ?elem_of_nil; intros H;
    repeat destruct H as [H|H]; try discriminate H; exact H.
Defined.

Lemma generate_performance_chart_outcome_witness :
  exists series,
    generate_performance_chart Demo.world (portfolio Demo.held) = Return (Some series).
Proof.
  apply (proj1 (generate_performance_chart_outcome Demo.world (portfolio Demo.held))).
  split; [discriminate|]. repeat constructor; eexists; reflexivity.
Defined.
